(** * go-shp: shapefile geometry records and DBF field descriptors

    A shallow embedding of [shapefile.go] (package [goshp]): the bounding
    box type with [Extend] and [BBoxFromPoints], the [Null], [Point],
    [PolyLine] and [Polygon] records with their [BBox], [read] and [write]
    methods, and the DBF [Field] descriptor with its constructors.

    Conventions of the embedding.
    - A [float64] is its IEEE 754 binary64 bit pattern (what
      [math.Float64bits] returns), a [Z] in [0, 2^64).  The codec only moves
      the bits; the comparisons [<] and [>] decode them.
    - An [int32] is a [Z] in [-2^31, 2^31); conversion to and from [uint32]
      is written out.
    - Bytes are [Byte.byte]; little-endian packing is coqutil's
      [le_split] / [le_combine].
    - A slice is a list (a nil slice and an empty slice are both [[]]).
    - A method with a pointer receiver takes the receiver's value before the
      call and returns its value after the call.
    - [PolyLine_read] and [Polygon_read] are the runs in which the runtime
      serves every allocation; [PolyLine_read_in] and [Polygon_read_in] take
      the runtime as an argument and also end in a panic on a length out of
      range or in the death of the process for want of memory. *)

From Stdlib Require Import Init.Byte String.
From Stdlib Require Import ZArith List Bool Lia.
From Stdlib Require Import Floats.SpecFloat.
From coqutil Require Import Word.LittleEndianList Byte.
Import ListNotations.

Local Open Scope Z_scope.

(* ------------------------------------------------------------------ *)
(** ** float64 *)

Definition float64 : Type := Z.

Module Float64.

Definition wf (x : float64) : Prop := 0 <= x < 2 ^ 64.

Definition sign (x : float64) : bool := Z.testbit x 63.
Definition biased_exponent (x : float64) : Z := Z.land (Z.shiftr x 52) 2047.
Definition fraction (x : float64) : Z := Z.land x (Z.ones 52).

(** The number a bit pattern denotes (IEEE 754 binary64). *)
Definition value (x : float64) : spec_float :=
  let s := sign x in
  let e := biased_exponent x in
  let m := fraction x in
  if e =? 2047 then
    if m =? 0 then S754_infinity s else S754_nan
  else if e =? 0 then
    match m with
    | Zpos p => S754_finite s p (-1074)
    | _ => S754_zero s
    end
  else
    match m + 2 ^ 52 with
    | Zpos p => S754_finite s p (e - 1075)
    | _ => S754_nan
    end.

(** Go's [x < y], [x > y] and [x <= y] on float64. *)
Definition ltb (x y : float64) : bool := SFltb (value x) (value y).
Definition gtb (x y : float64) : bool :=
  match SFcompare (value x) (value y) with
  | Some Gt => true
  | _ => false
  end.
Definition leb (x y : float64) : bool := SFleb (value x) (value y).

Definition is_nan (x : float64) : bool :=
  match value x with
  | S754_nan => true
  | _ => false
  end.

(** The comparison of two finite numbers of the same sign: exponent
    first, then mantissa. *)
Definition cmp_em (e1 : Z) (m1 : positive) (e2 : Z) (m2 : positive) : comparison :=
  match Z.compare e1 e2 with
  | Lt => Lt
  | Gt => Gt
  | Eq => Pos.compare_cont Eq m1 m2
  end.

(** The float64 an integer constant converts to, exact for
    [|n| < 2^53]; [of_int 0] is [+0]. *)
Definition of_int (n : Z) : float64 :=
  match n with
  | Z0 => 0
  | _ =>
    let a := Z.abs n in
    let p := Z.log2 a in
    let m := Z.shiftl a (52 - p) - 2 ^ 52 in
    Z.lor (if n <? 0 then Z.shiftl 1 63 else 0)
          (Z.lor (Z.shiftl (p + 1023) 52) m)
  end.

(** A quiet NaN, [math.NaN()]. *)
Definition NaN : float64 := 0x7FF8000000000001.

End Float64.

(* ------------------------------------------------------------------ *)
(** ** Box, Point and the bounding box of a point sequence *)

Record Box := mkBox { MinX : float64; MinY : float64; MaxX : float64; MaxY : float64 }.

Record Point := mkPoint { X : float64; Y : float64 }.

Definition with_MinX (b : Box) (v : float64) : Box := mkBox v (MinY b) (MaxX b) (MaxY b).
Definition with_MinY (b : Box) (v : float64) : Box := mkBox (MinX b) v (MaxX b) (MaxY b).
Definition with_MaxX (b : Box) (v : float64) : Box := mkBox (MinX b) (MinY b) v (MaxY b).
Definition with_MaxY (b : Box) (v : float64) : Box := mkBox (MinX b) (MinY b) (MaxX b) v.

(** The zero value of [Box] and of [Point]. *)
Definition Box_zero : Box := mkBox 0 0 0 0.
Definition Point_zero : Point := mkPoint 0 0.

(** [func (b *Box) Extend(box Box)]: the four guarded assignments, in
    order; the result is the receiver after the call. *)
Definition Extend (b : Box) (box : Box) : Box :=
  let b := if Float64.ltb (MinX box) (MinX b) then with_MinX b (MinX box) else b in
  let b := if Float64.ltb (MinY box) (MinY b) then with_MinY b (MinY box) else b in
  let b := if Float64.gtb (MaxX box) (MaxX b) then with_MaxX b (MaxX box) else b in
  let b := if Float64.gtb (MaxY box) (MaxY b) then with_MaxY b (MaxY box) else b in
  b.

(** The body of the [else] branch of the loop of [BBoxFromPoints]. *)
Definition relax (box : Box) (p : Point) : Box :=
  let box := if Float64.ltb (X p) (MinX box) then with_MinX box (X p) else box in
  let box := if Float64.ltb (Y p) (MinY box) then with_MinY box (Y p) else box in
  let box := if Float64.gtb (X p) (MaxX box) then with_MaxX box (X p) else box in
  let box := if Float64.gtb (Y p) (MaxY box) then with_MaxY box (Y p) else box in
  box.

(** One iteration of [for k, p := range points]: the state is the index
    [k] and the named result [box]. *)
Definition BBoxFromPoints_iter (st : nat * Box) (p : Point) : nat * Box :=
  let '(k, box) := st in
  (S k, if Nat.eqb k 0 then mkBox (X p) (Y p) (X p) (Y p) else relax box p).

(** [func BBoxFromPoints(points []Point) (box Box)]: the named result
    starts at its zero value. *)
Definition BBoxFromPoints (points : list Point) : Box :=
  snd (fold_left BBoxFromPoints_iter points (O, Box_zero)).

(* ------------------------------------------------------------------ *)
(** ** Byte sources and sinks (io.Reader, io.Writer) *)

(** The errors of package [io] that the models below produce. *)
Inductive error := EOF | ErrUnexpectedEOF | ErrClosedPipe | ErrShortWrite.

(** An [io.Reader]: the bytes it still delivers, and the error it reports
    once they are used up ([EOF] for a file or a buffer). *)
Record Reader := mkReader { pending : list byte; closing : error }.

(** [io.ReadFull(r, buf)] with [len(buf) = n]: the bytes read, the reader
    afterwards and the error.  A short read consumes what was there. *)
Definition io_ReadFull (r : Reader) (n : nat) : list byte * Reader * option error :=
  if (n <=? length (pending r))%nat then
    (firstn n (pending r), mkReader (skipn n (pending r)) (closing r), None)
  else
    (pending r, mkReader [] (closing r),
     Some match pending r, closing r with
          | _ :: _, EOF => ErrUnexpectedEOF
          | _, e => e
          end).

(** An [io.Writer]: [Write] returns the sink afterwards, the number of
    bytes taken and the error. *)
Class Writer (W : Type) := Write : W -> list byte -> W * nat * option error.

(** A [bytes.Buffer]: takes everything. *)
Definition Buffer := list byte.
#[export] Instance Buffer_Writer : Writer Buffer :=
  fun w bs => (w ++ bs, length bs, None).

(** A closed pipe: takes nothing, reports [ErrClosedPipe], and counts the
    calls it received. *)
Record ClosedPipe := mkClosedPipe { calls : nat }.
#[export] Instance ClosedPipe_Writer : Writer ClosedPipe :=
  fun w bs => (mkClosedPipe (S (calls w)), O, Some ErrClosedPipe).

(* ------------------------------------------------------------------ *)
(** ** encoding/binary, little endian *)

Definition int32 : Type := Z.
Definition wf_int32 (x : int32) : Prop := - 2 ^ 31 <= x < 2 ^ 31.

(** The conversions [uint32(x)] and [int32(u)]. *)
Definition uint32_of_int32 (x : int32) : Z := x mod 2 ^ 32.
Definition int32_of_uint32 (u : Z) : int32 := if u <? 2 ^ 31 then u else u - 2 ^ 32.

(** The [decoder]: the part of its buffer not yet consumed.  Each
    function returns the value and the decoder afterwards. *)
Definition decoder := list byte.

Definition d_uint32 (d : decoder) : Z * decoder := (le_combine (firstn 4 d), skipn 4 d).
Definition d_uint64 (d : decoder) : Z * decoder := (le_combine (firstn 8 d), skipn 8 d).

Definition d_int32 (d : decoder) : int32 * decoder :=
  let '(u, d) := d_uint32 d in (int32_of_uint32 u, d).

(** [math.Float64frombits(d.uint64())] *)
Definition d_float64 (d : decoder) : float64 * decoder := d_uint64 d.

Definition d_Point (d : decoder) : Point * decoder :=
  let '(x, d) := d_float64 d in
  let '(y, d) := d_float64 d in
  (mkPoint x y, d).

Definition d_Box (d : decoder) : Box * decoder :=
  let '(minx, d) := d_float64 d in
  let '(miny, d) := d_float64 d in
  let '(maxx, d) := d_float64 d in
  let '(maxy, d) := d_float64 d in
  (mkBox minx miny maxx maxy, d).

(** A slice of [n] elements, element by element. *)
Fixpoint d_slice {A : Type} (elem : decoder -> A * decoder) (n : nat) (d : decoder)
  : list A * decoder :=
  match n with
  | O => ([], d)
  | S n =>
    let '(a, d) := elem d in
    let '(l, d) := d_slice elem n d in
    (a :: l, d)
  end.

(** The [encoder]: the bytes each value contributes. *)
Definition e_uint32 (u : Z) : list byte := le_split 4 u.
Definition e_uint64 (u : Z) : list byte := le_split 8 u.
Definition e_int32 (x : int32) : list byte := e_uint32 (uint32_of_int32 x).
(** [e.uint64(math.Float64bits(x))] *)
Definition e_float64 (x : float64) : list byte := e_uint64 x.
Definition e_Point (p : Point) : list byte := e_float64 (X p) ++ e_float64 (Y p).
Definition e_Box (b : Box) : list byte :=
  e_float64 (MinX b) ++ e_float64 (MinY b) ++ e_float64 (MaxX b) ++ e_float64 (MaxY b).
Definition e_slice {A : Type} (elem : A -> list byte) (l : list A) : list byte :=
  flat_map elem l.

(** [binary.Read(r, binary.LittleEndian, data)] for data of [size] bytes
    decoded by [value]: the bytes are fetched with [io.ReadFull]; on an
    error the data is left as it was and the error is returned. *)
Definition binary_Read {A : Type} (size : nat) (value : decoder -> A * decoder)
    (r : Reader) (data : A) : A * Reader * option error :=
  let '(buf, r, err) := io_ReadFull r size in
  match err with
  | Some e => (data, r, Some e)
  | None => (fst (value buf), r, None)
  end.

(** [binary.Write(w, binary.LittleEndian, data)] where [buf] is the
    encoding of the data: one call of [Write], whose error is returned. *)
Definition binary_Write {W : Type} `{Writer W} (w : W) (buf : list byte)
  : W * option error :=
  let '(w, _, err) := Write w buf in (w, err).

(** [make([]T, n)] with [n] an [int32], in a run in which the runtime
    serves the request: a negative length panics; the slice is filled with
    the zero value of [T].  What the runtime does with a length that is too
    large, or when it has no memory left, is [make_in] below. *)
Definition make {A : Type} (zero : A) (n : int32) : option (list A) :=
  if n <? 0 then None else Some (repeat zero (Z.to_nat n)).

(** How a call ends: it returns, or it panics ([read] and [write] have
    no result and no error in their signature). *)
Inductive outcome (A : Type) : Type :=
| Returned (a : A)
| Panicked.
Arguments Returned {A} a.
Arguments Panicked {A}.

(* ------------------------------------------------------------------ *)
(** ** The shapes *)

(** *** Null *)

Record Null := mkNull { }.

Definition Null_BBox (n : Null) : Box := mkBox 0 0 0 0.

(** [binary.Read] of a struct without fields: zero bytes. *)
Definition Null_read (n : Null) (file : Reader) : Null * Reader :=
  let '(n, file, _) := binary_Read 0 (fun d => (mkNull, d)) file n in
  (n, file).

Definition Null_write {W : Type} `{Writer W} (n : Null) (file : W) : W :=
  let '(file, _) := binary_Write file [] in
  file.

(** *** Point *)

Definition Point_BBox (p : Point) : Box := mkBox (X p) (Y p) (X p) (Y p).

Definition Point_read (p : Point) (file : Reader) : Point * Reader :=
  let '(p, file, _) := binary_Read 16 d_Point file p in
  (p, file).

Definition Point_write {W : Type} `{Writer W} (p : Point) (file : W) : W :=
  let '(file, _) := binary_Write file (e_Point p) in
  file.

(** *** PolyLine *)

Record PolyLine := mkPolyLine {
  PolyLine_Box : Box;
  NumParts : int32;
  NumPoints : int32;
  Parts : list int32;
  Points : list Point
}.

Definition PolyLine_BBox (p : PolyLine) : Box := BBoxFromPoints (Points p).

(** [func (p *PolyLine) read(file io.Reader)]: the seven statements in
    order.  Every error of [binary.Read] is dropped; the two [make] calls
    can panic. *)
Definition PolyLine_read (p : PolyLine) (file : Reader) : outcome (PolyLine * Reader) :=
  let '(box, file, _) := binary_Read 32 d_Box file (PolyLine_Box p) in
  let '(numParts, file, _) := binary_Read 4 d_int32 file (NumParts p) in
  let '(numPoints, file, _) := binary_Read 4 d_int32 file (NumPoints p) in
  match make (A := int32) 0 numParts with
  | None => Panicked
  | Some parts =>
    match make Point_zero numPoints with
    | None => Panicked
    | Some points =>
      let '(parts, file, _) :=
        binary_Read (4 * length parts) (d_slice d_int32 (length parts)) file parts in
      let '(points, file, _) :=
        binary_Read (16 * length points) (d_slice d_Point (length points)) file points in
      Returned (mkPolyLine box numParts numPoints parts points, file)
    end
  end.

(** [func (p *PolyLine) write(file io.Writer)]: five calls of
    [binary.Write], errors dropped. *)
Definition PolyLine_write {W : Type} `{Writer W} (p : PolyLine) (file : W) : W :=
  let '(file, _) := binary_Write file (e_Box (PolyLine_Box p)) in
  let '(file, _) := binary_Write file (e_int32 (NumParts p)) in
  let '(file, _) := binary_Write file (e_int32 (NumPoints p)) in
  let '(file, _) := binary_Write file (e_slice e_int32 (Parts p)) in
  let '(file, _) := binary_Write file (e_slice e_Point (Points p)) in
  file.

(** *** Polygon: [type Polygon PolyLine], a type of its own with the
    fields of [PolyLine] and its own three methods. *)

Record Polygon := mkPolygon {
  Polygon_Box : Box;
  Polygon_NumParts : int32;
  Polygon_NumPoints : int32;
  Polygon_Parts : list int32;
  Polygon_Points : list Point
}.

(** The conversions [Polygon(p)] and [PolyLine(p)]. *)
Definition Polygon_of_PolyLine (p : PolyLine) : Polygon :=
  mkPolygon (PolyLine_Box p) (NumParts p) (NumPoints p) (Parts p) (Points p).
Definition PolyLine_of_Polygon (p : Polygon) : PolyLine :=
  mkPolyLine (Polygon_Box p) (Polygon_NumParts p) (Polygon_NumPoints p)
             (Polygon_Parts p) (Polygon_Points p).

Definition Polygon_BBox (p : Polygon) : Box := BBoxFromPoints (Polygon_Points p).

Definition Polygon_read (p : Polygon) (file : Reader) : outcome (Polygon * Reader) :=
  let '(box, file, _) := binary_Read 32 d_Box file (Polygon_Box p) in
  let '(numParts, file, _) := binary_Read 4 d_int32 file (Polygon_NumParts p) in
  let '(numPoints, file, _) := binary_Read 4 d_int32 file (Polygon_NumPoints p) in
  match make (A := int32) 0 numParts with
  | None => Panicked
  | Some parts =>
    match make Point_zero numPoints with
    | None => Panicked
    | Some points =>
      let '(parts, file, _) :=
        binary_Read (4 * length parts) (d_slice d_int32 (length parts)) file parts in
      let '(points, file, _) :=
        binary_Read (16 * length points) (d_slice d_Point (length points)) file points in
      Returned (mkPolygon box numParts numPoints parts points, file)
    end
  end.

Definition Polygon_write {W : Type} `{Writer W} (p : Polygon) (file : W) : W :=
  let '(file, _) := binary_Write file (e_Box (Polygon_Box p)) in
  let '(file, _) := binary_Write file (e_int32 (Polygon_NumParts p)) in
  let '(file, _) := binary_Write file (e_int32 (Polygon_NumPoints p)) in
  let '(file, _) := binary_Write file (e_slice e_int32 (Polygon_Parts p)) in
  let '(file, _) := binary_Write file (e_slice e_Point (Polygon_Points p)) in
  file.

(** The bytes a shape encodes to: what its [write] leaves in an empty
    [bytes.Buffer]. *)
Definition Null_bytes (n : Null) : list byte := Null_write n ([] : Buffer).
Definition Point_bytes (p : Point) : list byte := Point_write p ([] : Buffer).
Definition PolyLine_bytes (p : PolyLine) : list byte := PolyLine_write p ([] : Buffer).
Definition Polygon_bytes (p : Polygon) : list byte := Polygon_write p ([] : Buffer).

(* ------------------------------------------------------------------ *)
(** ** Field descriptors of the DBF file *)

(** [Name], [Addr] and [Padding] are arrays of 11, 4 and 14 bytes;
    [uint8] is [byte]. *)
Record Field := mkField {
  Name : list byte;
  Fieldtype : byte;
  Addr : list byte;
  Size : byte;
  Precision : byte;
  Padding : list byte
}.

(** The zero value of [Field]. *)
Definition Field_zero : Field :=
  mkField (repeat Byte.x00 11) Byte.x00 (repeat Byte.x00 4) Byte.x00 Byte.x00
          (repeat Byte.x00 14).

(** The builtin [copy(dst, src)]: the first [min(len(dst), len(src))]
    elements of [src] overwrite those of [dst]. *)
Definition copy {A : Type} (dst src : list A) : list A :=
  let n := Nat.min (length dst) (length src) in
  firstn n src ++ skipn n dst.

(** [[]byte(name)] *)
Definition bytes_of_string (name : String.string) : list byte :=
  String.list_byte_of_string name.

Definition StringField (name : String.string) (length : byte) : Field :=
  let field := mkField (Name Field_zero) "C"%byte (Addr Field_zero) length
                       (Precision Field_zero) (Padding Field_zero) in
  mkField (copy (Name field) (bytes_of_string name)) (Fieldtype field) (Addr field)
          (Size field) (Precision field) (Padding field).

Definition NumberField (name : String.string) (length : byte) : Field :=
  let field := mkField (Name Field_zero) "N"%byte (Addr Field_zero) length
                       (Precision Field_zero) (Padding Field_zero) in
  mkField (copy (Name field) (bytes_of_string name)) (Fieldtype field) (Addr field)
          (Size field) (Precision field) (Padding field).

Definition FloatField (name : String.string) (length precision : byte) : Field :=
  let field := mkField (Name Field_zero) "F"%byte (Addr Field_zero) length
                       precision (Padding Field_zero) in
  mkField (copy (Name field) (bytes_of_string name)) (Fieldtype field) (Addr field)
          (Size field) (Precision field) (Padding field).

Definition DateField (name : String.string) : Field :=
  let field := mkField (Name Field_zero) "D"%byte (Addr Field_zero) (byte.of_Z 8)
                       (Precision Field_zero) (Padding Field_zero) in
  mkField (copy (Name field) (bytes_of_string name)) (Fieldtype field) (Addr field)
          (Size field) (Precision field) (Padding field).


(* ------------------------------------------------------------------ *)
(** ** Allocation: what the runtime does with [make] *)

(** The Go runtime as [read] meets it.  [maxAlloc] is the platform's
    limit on the size of one allocation in bytes (2^48 on linux/amd64, under
    2^32 on 32-bit targets).  [grants k bytes] tells whether the [k]-th
    request of the call, for [bytes] bytes, is served; a request that is not
    served ends the process ("fatal error: out of memory").  The requests
    whose size comes off the wire are numbered in program order: 0 and 1
    the two [make] calls, 2 and 3 the buffers [binary.Read] makes for the
    two slices.  Requests of a fixed small size are taken as served. *)
Record Runtime := mkRuntime { maxAlloc : N; grants : nat -> Z -> bool }.

(** A request of no bytes allocates nothing. *)
Definition granted (rt : Runtime) (k : nat) (bytes : Z) : bool :=
  (bytes =? 0) || grants rt k bytes.

(** How [make] ends: the slice, the panic "makeslice: len out of range",
    or the death of the process for want of memory. *)
Inductive made (A : Type) : Type :=
| Made (l : list A)
| MakePanics
| MakeDies.
Arguments Made {A} l.
Arguments MakePanics {A}.
Arguments MakeDies {A}.

(** [make([]T, n)], request [k], for elements of [elem_size] bytes:
    [runtime.makeslice] panics when [n] is negative or [n * elem_size]
    exceeds [maxAlloc], and asks the allocator otherwise. *)
Definition make_in {A : Type} (rt : Runtime) (k : nat) (elem_size : Z) (zero : A)
    (n : int32) : made A :=
  if (n <? 0) || (Z.of_N (maxAlloc rt) <? n * elem_size) then MakePanics
  else if granted rt k (n * elem_size) then Made (repeat zero (Z.to_nat n))
  else MakeDies.

(** [binary.Read] of a slice, request [k]: its buffer of [size] bytes is
    asked of the runtime first; [None] when the process dies there. *)
Definition binary_Read_in {A : Type} (rt : Runtime) (k : nat) (size : nat)
    (value : decoder -> A * decoder) (r : Reader) (data : A)
  : option (A * Reader * option error) :=
  if granted rt k (Z.of_nat size) then Some (binary_Read size value r data) else None.

(** How a call of [read] ends under a runtime: it returns, it panics, or
    the process dies. *)
Inductive ending (A : Type) : Type :=
| Returns (a : A)
| Panics
| Dies.
Arguments Returns {A} a.
Arguments Panics {A}.
Arguments Dies {A}.

(** [func (p *PolyLine) read(file io.Reader)] under the runtime [rt]: the
    seven statements in order, every error of [binary.Read] dropped. *)
Definition PolyLine_read_in (rt : Runtime) (p : PolyLine) (file : Reader)
  : ending (PolyLine * Reader) :=
  let '(box, file, _) := binary_Read 32 d_Box file (PolyLine_Box p) in
  let '(numParts, file, _) := binary_Read 4 d_int32 file (NumParts p) in
  let '(numPoints, file, _) := binary_Read 4 d_int32 file (NumPoints p) in
  match make_in (A := int32) rt 0 4 0 numParts with
  | MakePanics => Panics
  | MakeDies => Dies
  | Made parts =>
    match make_in rt 1 16 Point_zero numPoints with
    | MakePanics => Panics
    | MakeDies => Dies
    | Made points =>
      match binary_Read_in rt 2 (4 * length parts) (d_slice d_int32 (length parts))
                           file parts with
      | None => Dies
      | Some (parts, file, _) =>
        match binary_Read_in rt 3 (16 * length points) (d_slice d_Point (length points))
                             file points with
        | None => Dies
        | Some (points, file, _) =>
          Returns (mkPolyLine box numParts numPoints parts points, file)
        end
      end
    end
  end.

(** [func (p *Polygon) read(file io.Reader)] under the runtime [rt]. *)
Definition Polygon_read_in (rt : Runtime) (p : Polygon) (file : Reader)
  : ending (Polygon * Reader) :=
  let '(box, file, _) := binary_Read 32 d_Box file (Polygon_Box p) in
  let '(numParts, file, _) := binary_Read 4 d_int32 file (Polygon_NumParts p) in
  let '(numPoints, file, _) := binary_Read 4 d_int32 file (Polygon_NumPoints p) in
  match make_in (A := int32) rt 0 4 0 numParts with
  | MakePanics => Panics
  | MakeDies => Dies
  | Made parts =>
    match make_in rt 1 16 Point_zero numPoints with
    | MakePanics => Panics
    | MakeDies => Dies
    | Made points =>
      match binary_Read_in rt 2 (4 * length parts) (d_slice d_int32 (length parts))
                           file parts with
      | None => Dies
      | Some (parts, file, _) =>
        match binary_Read_in rt 3 (16 * length points) (d_slice d_Point (length points))
                             file points with
        | None => Dies
        | Some (points, file, _) =>
          Returns (mkPolygon box numParts numPoints parts points, file)
        end
      end
    end
  end.

(** Whether the runtime lets a read with the counts [np] and [npt] go
    through: the four requests in program order. *)
Definition PolyLine_read_fate (rt : Runtime) (np npt : int32) : ending unit :=
  if (np <? 0) || (Z.of_N (maxAlloc rt) <? np * 4) then Panics
  else if negb (granted rt 0 (np * 4)) then Dies
  else if (npt <? 0) || (Z.of_N (maxAlloc rt) <? npt * 16) then Panics
  else if negb (granted rt 1 (npt * 16)) then Dies
  else if negb (granted rt 2 (np * 4)) then Dies
  else if negb (granted rt 3 (npt * 16)) then Dies
  else Returns tt.

(** A runtime that serves every request up to [limit] bytes, on a 64-bit
    target. *)
Definition runtime_with (limit : Z) : Runtime :=
  mkRuntime (2 ^ 48) (fun _ bytes => bytes <=? limit).

(* ------------------------------------------------------------------ *)
(** ** Vocabulary of the properties *)

(** [run_best lt m xs] is the loop "if x beats m then m = x" over [xs];
    [relax] runs four of them side by side. *)
Definition run_best {A : Type} (lt : A -> A -> bool) (m : A) (xs : list A) : A :=
  fold_left (fun m x => if lt x m then x else m) xs m.

(** [p] lies within [b], bounds included. *)
Definition covers (b : Box) (p : Point) : bool :=
  Float64.leb (MinX b) (X p) && Float64.leb (X p) (MaxX b) &&
  Float64.leb (MinY b) (Y p) && Float64.leb (Y p) (MaxY b).

Definition covering_box (b : Box) (points : list Point) : Prop :=
  Forall (fun p => covers b p = true) points.

(** [b] lies within [c]: every bound of [c] is at or beyond that of [b]. *)
Definition box_within (b c : Box) : Prop :=
  Float64.leb (MinX c) (MinX b) = true /\ Float64.leb (MinY c) (MinY b) = true /\
  Float64.leb (MaxX b) (MaxX c) = true /\ Float64.leb (MaxY b) (MaxY c) = true.

(** [b] covers the points and lies within every box that covers them. *)
Definition minimal_covering_box (b : Box) (points : list Point) : Prop :=
  covering_box b points /\ forall c, covering_box c points -> box_within b c.

(** Neither coordinate is a NaN. *)
Definition numeric (p : Point) : Prop :=
  Float64.is_nan (X p) = false /\ Float64.is_nan (Y p) = false.

(** Going from [b] to [b'], each bound stays as it is, bit for bit, or
    moves strictly outward; none moves inward. *)
Definition never_narrows (b b' : Box) : Prop :=
  (MinX b' = MinX b \/ Float64.ltb (MinX b') (MinX b) = true) /\
  (MinY b' = MinY b \/ Float64.ltb (MinY b') (MinY b) = true) /\
  (MaxX b' = MaxX b \/ Float64.gtb (MaxX b') (MaxX b) = true) /\
  (MaxY b' = MaxY b \/ Float64.gtb (MaxY b') (MaxY b) = true) /\
  Float64.gtb (MinX b') (MinX b) = false /\
  Float64.gtb (MinY b') (MinY b) = false /\
  Float64.ltb (MaxX b') (MaxX b) = false /\
  Float64.ltb (MaxY b') (MaxY b) = false.

(** The step from [box] to [box'] at point [p] relaxes: each bound stays,
    or is replaced by the coordinate of [p] that lies strictly beyond it. *)
Definition relaxed_by (box box' : Box) (p : Point) : Prop :=
  (MinX box' = MinX box \/ (MinX box' = X p /\ Float64.ltb (X p) (MinX box) = true)) /\
  (MinY box' = MinY box \/ (MinY box' = Y p /\ Float64.ltb (Y p) (MinY box) = true)) /\
  (MaxX box' = MaxX box \/ (MaxX box' = X p /\ Float64.gtb (X p) (MaxX box) = true)) /\
  (MaxY box' = MaxY box \/ (MaxY box' = Y p /\ Float64.gtb (Y p) (MaxY box) = true)).

(* ------------------------------------------------------------------ *)
(** ** Well-formed values, examples and auxiliary notions *)

(** The points of the example of the specification. *)
Definition example_points : list Point :=
  [ mkPoint (Float64.of_int 1) (Float64.of_int 2);
    mkPoint (Float64.of_int (-1)) (Float64.of_int 5);
    mkPoint (Float64.of_int 3) (Float64.of_int 0) ].

(** Two boxes: [inner_box] = [1,2]x[1,2] lies within [outer_box] = [0,3]x[0,3]. *)
Definition outer_box : Box :=
  mkBox (Float64.of_int 0) (Float64.of_int 0) (Float64.of_int 3) (Float64.of_int 3).

Definition inner_box : Box :=
  mkBox (Float64.of_int 1) (Float64.of_int 1) (Float64.of_int 2) (Float64.of_int 2).

Definition wf_Point (p : Point) : Prop := Float64.wf (X p) /\ Float64.wf (Y p).

Definition wf_Box (b : Box) : Prop :=
  Float64.wf (MinX b) /\ Float64.wf (MinY b) /\ Float64.wf (MaxX b) /\ Float64.wf (MaxY b).

(** A PolyLine value of the Go type whose counts agree with its slices. *)
Definition valid_PolyLine (p : PolyLine) : Prop :=
  wf_Box (PolyLine_Box p) /\ wf_int32 (NumParts p) /\ wf_int32 (NumPoints p) /\
  Forall wf_int32 (Parts p) /\ Forall wf_Point (Points p) /\
  NumParts p = Z.of_nat (length (Parts p)) /\
  NumPoints p = Z.of_nat (length (Points p)).

Definition valid_Polygon (p : Polygon) : Prop := valid_PolyLine (PolyLine_of_Polygon p).

(** A polyline of one part and two points, (1,2) and (3,0). *)
Definition example_PolyLine : PolyLine :=
  mkPolyLine (mkBox (Float64.of_int 1) (Float64.of_int 0) (Float64.of_int 3) (Float64.of_int 2))
             1 2 [0]
             [mkPoint (Float64.of_int 1) (Float64.of_int 2);
              mkPoint (Float64.of_int 3) (Float64.of_int 0)].

(** The zero value of [PolyLine] and of [Polygon]: a fresh receiver. *)
Definition PolyLine_zero : PolyLine := mkPolyLine Box_zero 0 0 [] [].


(** [p.NumParts] and [p.NumPoints] when the two [make] calls of
    [PolyLine.read] run: after the first three statements. *)
Definition PolyLine_counts (p : PolyLine) (file : Reader) : int32 * int32 :=
  let '(_, file, _) := binary_Read 32 d_Box file (PolyLine_Box p) in
  let '(numParts, file, _) := binary_Read 4 d_int32 file (NumParts p) in
  let '(numPoints, file, _) := binary_Read 4 d_int32 file (NumPoints p) in
  (numParts, numPoints).

(** The header of [example_PolyLine] (Box, NumParts = 1, NumPoints = 2)
    and nothing after it. *)
Definition truncated_after_NumPoints : Reader :=
  mkReader (firstn 40 (PolyLine_bytes example_PolyLine)) EOF.

(** A source of 36 bytes: a zero Box, then NumParts = -1; NumPoints is
    missing. *)
Definition negative_NumParts : Reader :=
  mkReader (e_Box Box_zero ++ e_int32 (-1)) EOF.


(** Every bound of the box is a number. *)
Definition numeric_box (b : Box) : Prop :=
  Float64.is_nan (MinX b) = false /\ Float64.is_nan (MinY b) = false /\
  Float64.is_nan (MaxX b) = false /\ Float64.is_nan (MaxY b) = false.

(** [func (f Field) String() string]: [string(f.Name[:])], all the
    bytes of the array. *)
Definition Field_String (f : Field) : string := string_of_list_byte (Name f).

(** The name as the four constructors store it. *)
Definition stored_name (name : string) : list byte :=
  firstn 11 (bytes_of_string name) ++ repeat Byte.x00 (11 - length (bytes_of_string name)).


(** [dec] reads a value off the first [k] bytes of the buffer, and [enc]
    of that value gives those bytes back. *)
Definition consumes {A : Type} (k : nat) (enc : A -> list byte)
    (dec : decoder -> A * decoder) : Prop :=
  forall d, (k <= length d)%nat ->
    enc (fst (dec d)) = firstn k d /\ snd (dec d) = skipn k d.

(** The source of 40 bytes whose header declares no part and
    2147483647 points. *)
Definition huge_NumPoints : Reader :=
  mkReader (e_Box Box_zero ++ e_int32 0 ++ e_int32 2147483647) EOF.

(** Splits a goal into its conjuncts and list elements. *)
Ltac split_all :=
  repeat match goal with
         | |- _ /\ _ => split
         | |- Forall _ (_ :: _) => apply Forall_cons
         | |- Forall _ [] => apply Forall_nil
         end.

(* ================================================================== *)
(** * Properties *)

(* ------------------------------------------------------------------ *)
(** ** The order on float64 *)

Module Float64Facts.
Import Float64.

Lemma cmp_em_Lt e1 m1 e2 m2 :
  cmp_em e1 m1 e2 m2 = Lt <-> e1 < e2 \/ (e1 = e2 /\ (m1 < m2)%positive).
Proof.
  unfold cmp_em. change (Pos.compare_cont Eq m1 m2) with (Pos.compare m1 m2).
  destruct (Z.compare_spec e1 e2); destruct (Pos.compare_spec m1 m2);
    split; intros; try discriminate; try reflexivity; lia.
Qed.

Lemma cmp_em_Gt e1 m1 e2 m2 :
  cmp_em e1 m1 e2 m2 = Gt <-> e2 < e1 \/ (e1 = e2 /\ (m2 < m1)%positive).
Proof.
  unfold cmp_em. change (Pos.compare_cont Eq m1 m2) with (Pos.compare m1 m2).
  destruct (Z.compare_spec e1 e2); destruct (Pos.compare_spec m1 m2);
    split; intros; try discriminate; try reflexivity; lia.
Qed.

Lemma cmp_em_swap e1 m1 e2 m2 :
  cmp_em e2 m2 e1 m1 = CompOpp (cmp_em e1 m1 e2 m2).
Proof.
  unfold cmp_em. change (Pos.compare_cont Eq) with Pos.compare.
  rewrite (Z.compare_antisym e1 e2), (Pos.compare_antisym m1 m2).
  destruct (e1 ?= e2); simpl; try reflexivity.
Qed.

Lemma SFcompare_swap (x y : spec_float) :
  SFcompare y x = option_map CompOpp (SFcompare x y).
Proof.
  destruct x as [sx|sx| |sx mx ex], y as [sy|sy| |sy my ey]; simpl;
    try reflexivity;
    try (destruct sx; reflexivity); try (destruct sy; reflexivity);
    try (destruct sx, sy; reflexivity).
  change (PosDef.Pos.compare_cont Eq) with Pos.compare.
  rewrite (Z.compare_antisym ex ey), (Pos.compare_antisym mx my).
  destruct sx, sy; simpl; try reflexivity;
    destruct (ex ?= ey); simpl; try reflexivity;
    destruct (mx ?= my)%positive; reflexivity.
Qed.

Lemma gtb_ltb x y : gtb x y = ltb y x.
Proof.
  unfold gtb, ltb, SFltb. rewrite (SFcompare_swap (value x) (value y)).
  destruct (SFcompare (value x) (value y)) as [[]|]; reflexivity.
Qed.

Lemma SFltb_irrefl x : SFltb x x = false.
Proof.
  unfold SFltb. pose proof (SFcompare_swap x x) as E.
  destruct (SFcompare x x) as [[]|]; simpl in E; try reflexivity; discriminate.
Qed.

Lemma SFltb_asym x y : SFltb x y = true -> SFltb y x = false.
Proof.
  unfold SFltb. rewrite (SFcompare_swap x y).
  destruct (SFcompare x y) as [[]|]; simpl; intros; try reflexivity; discriminate.
Qed.

Lemma SFcompare_finite s1 m1 e1 s2 m2 e2 :
  SFcompare (S754_finite s1 m1 e1) (S754_finite s2 m2 e2) =
  Some match s1, s2 with
       | true, false => Lt
       | false, true => Gt
       | false, false => cmp_em e1 m1 e2 m2
       | true, true => CompOpp (cmp_em e1 m1 e2 m2)
       end.
Proof.
  destruct s1, s2; simpl; unfold cmp_em; try reflexivity;
    destruct (e1 ?= e2); reflexivity.
Qed.

Lemma cmp_em_trans_Lt e1 m1 e2 m2 e3 m3 :
  cmp_em e1 m1 e2 m2 = Lt -> cmp_em e2 m2 e3 m3 = Lt -> cmp_em e1 m1 e3 m3 = Lt.
Proof. rewrite !cmp_em_Lt. lia. Qed.

Lemma cmp_em_trans_Gt e1 m1 e2 m2 e3 m3 :
  cmp_em e1 m1 e2 m2 = Gt -> cmp_em e2 m2 e3 m3 = Gt -> cmp_em e1 m1 e3 m3 = Gt.
Proof. rewrite !cmp_em_Gt. lia. Qed.

Lemma SFltb_trans x y z : SFltb x y = true -> SFltb y z = true -> SFltb x z = true.
Proof.
  unfold SFltb.
  destruct x as [sx|sx| |sx mx ex], y as [sy|sy| |sy my ey], z as [sz|sz| |sz mz ez];
    rewrite ?SFcompare_finite;
    try (simpl; discriminate);
    try (destruct sx; simpl; try discriminate);
    try (destruct sy; simpl; try discriminate);
    try (destruct sz; simpl; try discriminate);
    try reflexivity.
  - destruct (cmp_em ex mx ey my) eqn:E1; simpl; try discriminate.
    destruct (cmp_em ey my ez mz) eqn:E2; simpl; try discriminate.
    rewrite (cmp_em_trans_Gt _ _ _ _ _ _ E1 E2). reflexivity.
  - destruct (cmp_em ex mx ey my) eqn:E1; simpl; try discriminate.
    destruct (cmp_em ey my ez mz) eqn:E2; simpl; try discriminate.
    rewrite (cmp_em_trans_Lt _ _ _ _ _ _ E1 E2). reflexivity.
Qed.

Lemma ltb_irrefl x : ltb x x = false.
Proof. apply SFltb_irrefl. Qed.

Lemma ltb_asym x y : ltb x y = true -> ltb y x = false.
Proof. apply SFltb_asym. Qed.

Lemma ltb_trans x y z : ltb x y = true -> ltb y z = true -> ltb x z = true.
Proof. apply SFltb_trans. Qed.

(** [x <= y] excludes [y < x]. *)
Lemma leb_not_ltb x y : leb x y = true -> ltb y x = false.
Proof.
  unfold leb, ltb, SFleb, SFltb. rewrite (SFcompare_swap (value x) (value y)).
  destruct (SFcompare (value x) (value y)) as [[]|]; simpl; intros;
    try reflexivity; discriminate.
Qed.

Lemma SFcompare_None x y :
  SFcompare x y = None -> x = S754_nan \/ y = S754_nan.
Proof.
  destruct x, y; simpl; intros; try discriminate; auto.
Qed.

(** On numbers the order is total: not [y < x] gives [x <= y]. *)
Lemma not_ltb_leb x y :
  is_nan x = false -> is_nan y = false -> ltb y x = false -> leb x y = true.
Proof.
  unfold is_nan, leb, ltb, SFleb, SFltb. intros Hx Hy.
  rewrite (SFcompare_swap (value x) (value y)).
  destruct (SFcompare (value x) (value y)) as [[]|] eqn:E; simpl; intros;
    try reflexivity; try discriminate.
  apply SFcompare_None in E. destruct E as [E|E]; rewrite E in *; discriminate.
Qed.

(** A comparison with NaN is false. *)
Lemma ltb_nan_l x y : is_nan x = true -> ltb x y = false.
Proof.
  unfold is_nan, ltb, SFltb. destruct (value x); try discriminate. reflexivity.
Qed.

Lemma leb_nan_l x y : is_nan x = true -> leb x y = false.
Proof.
  unfold is_nan, leb, SFleb. destruct (value x); try discriminate. reflexivity.
Qed.

Lemma leb_nan_r x y : is_nan y = true -> leb x y = false.
Proof.
  unfold is_nan, leb, SFleb.
  destruct (value y); try discriminate. destruct (value x); reflexivity.
Qed.

Lemma leb_refl x : is_nan x = false -> leb x x = true.
Proof.
  intros Hx. apply not_ltb_leb; auto. apply ltb_irrefl.
Qed.

End Float64Facts.

(* ------------------------------------------------------------------ *)
(** ** A running extremum *)

Section RunBest.
Context {A : Type} (lt : A -> A -> bool).
Hypothesis lt_irrefl : forall x, lt x x = false.
Hypothesis lt_trans : forall x y z, lt x y = true -> lt y z = true -> lt x z = true.

Lemma run_best_cons m x xs :
  run_best lt m (x :: xs) = run_best lt (if lt x m then x else m) xs.
Proof. reflexivity. Qed.

(** The result is one of the candidates. *)
Lemma run_best_In m xs : In (run_best lt m xs) (m :: xs).
Proof.
  revert m. induction xs as [|x xs IH]; intros m.
  - left. reflexivity.
  - rewrite run_best_cons. destruct (IH (if lt x m then x else m)) as [E|E].
    + destruct (lt x m); rewrite <- E; simpl; auto.
    + right. right. exact E.
Qed.

(** The result is the start value or beats it. *)
Lemma run_best_start m xs :
  run_best lt m xs = m \/ lt (run_best lt m xs) m = true.
Proof.
  revert m. induction xs as [|x xs IH]; intros m.
  - left. reflexivity.
  - rewrite run_best_cons. destruct (lt x m) eqn:E.
    + right. destruct (IH x) as [H|H].
      * rewrite H. exact E.
      * eapply lt_trans; eauto.
    + apply IH.
Qed.

(** No candidate beats the result. *)
Lemma run_best_unbeaten m xs x :
  In x (m :: xs) -> lt x (run_best lt m xs) = false.
Proof.
  revert m x. induction xs as [|y ys IH]; intros m x Hin.
  - destruct Hin as [<-|[]]. apply lt_irrefl.
  - rewrite run_best_cons. destruct (lt y m) eqn:E.
    + destruct Hin as [<-|Hin].
      * destruct (lt m (run_best lt y ys)) eqn:F; [|reflexivity].
        rewrite <- (IH y y (or_introl eq_refl)).
        symmetry. eapply lt_trans; eauto.
      * apply IH. exact Hin.
    + destruct Hin as [<-|[<-|Hin]].
      * apply IH. left. reflexivity.
      * destruct (run_best_start m ys) as [H|H].
        -- rewrite H. exact E.
        -- destruct (lt y (run_best lt m ys)) eqn:F; [|reflexivity].
           rewrite <- E. symmetry. eapply lt_trans; eauto.
      * apply IH. right. exact Hin.
Qed.
End RunBest.

(* ------------------------------------------------------------------ *)
(** ** Box.Extend and BBoxFromPoints *)

Lemma gtb_irrefl x : Float64.gtb x x = false.
Proof. rewrite Float64Facts.gtb_ltb. apply Float64Facts.ltb_irrefl. Qed.

Lemma gtb_trans x y z :
  Float64.gtb x y = true -> Float64.gtb y z = true -> Float64.gtb x z = true.
Proof.
  rewrite !Float64Facts.gtb_ltb. intros H1 H2. eapply Float64Facts.ltb_trans; eauto.
Qed.

(** The receiver after [Extend], bound by bound. *)
Lemma Extend_bounds (b box : Box) :
  Extend b box =
  mkBox (if Float64.ltb (MinX box) (MinX b) then MinX box else MinX b)
        (if Float64.ltb (MinY box) (MinY b) then MinY box else MinY b)
        (if Float64.gtb (MaxX box) (MaxX b) then MaxX box else MaxX b)
        (if Float64.gtb (MaxY box) (MaxY b) then MaxY box else MaxY b).
Proof.
  destruct b as [a1 a2 a3 a4], box as [b1 b2 b3 b4].
  cbv [Extend with_MinX with_MinY with_MaxX with_MaxY MinX MinY MaxX MaxY].
  destruct (Float64.ltb b1 a1), (Float64.ltb b2 a2),
    (Float64.gtb b3 a3), (Float64.gtb b4 a4); reflexivity.
Qed.

Lemma relax_bounds (box : Box) (p : Point) :
  relax box p =
  mkBox (if Float64.ltb (X p) (MinX box) then X p else MinX box)
        (if Float64.ltb (Y p) (MinY box) then Y p else MinY box)
        (if Float64.gtb (X p) (MaxX box) then X p else MaxX box)
        (if Float64.gtb (Y p) (MaxY box) then Y p else MaxY box).
Proof.
  destruct box as [a1 a2 a3 a4], p as [x y].
  cbv [relax with_MinX with_MinY with_MaxX with_MaxY MinX MinY MaxX MaxY X Y].
  destruct (Float64.ltb x a1), (Float64.ltb y a2),
    (Float64.gtb x a3), (Float64.gtb y a4); reflexivity.
Qed.

(** After the first iteration the loop only relaxes. *)
Lemma BBoxFromPoints_iter_S k box ps :
  fold_left BBoxFromPoints_iter ps (S k, box) =
  ((S k + length ps)%nat, fold_left relax ps box).
Proof.
  revert k box. induction ps as [|p ps IH]; intros k box.
  - cbn [fold_left length]. rewrite Nat.add_0_r. reflexivity.
  - cbn [fold_left BBoxFromPoints_iter Nat.eqb length]. rewrite IH. f_equal. lia.
Qed.

Lemma BBoxFromPoints_cons p ps :
  BBoxFromPoints (p :: ps) = fold_left relax ps (mkBox (X p) (Y p) (X p) (Y p)).
Proof.
  unfold BBoxFromPoints. cbn [fold_left BBoxFromPoints_iter Nat.eqb].
  rewrite BBoxFromPoints_iter_S. reflexivity.
Qed.

(** The four bounds of a relaxed box are four running extrema. *)
Lemma fold_relax_bounds ps box :
  fold_left relax ps box =
  mkBox (run_best Float64.ltb (MinX box) (map X ps))
        (run_best Float64.ltb (MinY box) (map Y ps))
        (run_best Float64.gtb (MaxX box) (map X ps))
        (run_best Float64.gtb (MaxY box) (map Y ps)).
Proof.
  revert box. induction ps as [|p ps IH]; intros box.
  - destruct box; reflexivity.
  - cbn [fold_left map]. rewrite IH, relax_bounds. reflexivity.
Qed.

Lemma BBoxFromPoints_bounds p ps :
  BBoxFromPoints (p :: ps) =
  mkBox (run_best Float64.ltb (X p) (map X ps))
        (run_best Float64.ltb (Y p) (map Y ps))
        (run_best Float64.gtb (X p) (map X ps))
        (run_best Float64.gtb (Y p) (map Y ps)).
Proof. rewrite BBoxFromPoints_cons, fold_relax_bounds. reflexivity. Qed.

(** Without NaN the running minimum is at or below every candidate. *)
Lemma run_min_leb m xs x :
  (forall y, In y (m :: xs) -> Float64.is_nan y = false) ->
  In x (m :: xs) -> Float64.leb (run_best Float64.ltb m xs) x = true.
Proof.
  intros Hnum Hin. apply Float64Facts.not_ltb_leb.
  - apply Hnum. apply run_best_In.
  - apply Hnum. exact Hin.
  - apply (run_best_unbeaten Float64.ltb Float64Facts.ltb_irrefl Float64Facts.ltb_trans).
    exact Hin.
Qed.

Lemma run_max_leb m xs x :
  (forall y, In y (m :: xs) -> Float64.is_nan y = false) ->
  In x (m :: xs) -> Float64.leb x (run_best Float64.gtb m xs) = true.
Proof.
  intros Hnum Hin. apply Float64Facts.not_ltb_leb.
  - apply Hnum. exact Hin.
  - apply Hnum. apply run_best_In.
  - rewrite <- Float64Facts.gtb_ltb.
    apply (run_best_unbeaten Float64.gtb gtb_irrefl gtb_trans). exact Hin.
Qed.

Lemma numeric_X points x :
  Forall numeric points -> In x (map X points) -> Float64.is_nan x = false.
Proof.
  intros H Hin. apply in_map_iff in Hin. destruct Hin as [q [<- Hq]].
  rewrite Forall_forall in H. apply (H q Hq).
Qed.

Lemma numeric_Y points y :
  Forall numeric points -> In y (map Y points) -> Float64.is_nan y = false.
Proof.
  intros H Hin. apply in_map_iff in Hin. destruct Hin as [q [<- Hq]].
  rewrite Forall_forall in H. apply (H q Hq).
Qed.

Lemma relax_relaxed_by box p : relaxed_by box (relax box p) p.
Proof.
  rewrite relax_bounds. unfold relaxed_by. cbn [MinX MinY MaxX MaxY].
  repeat split.
  - destruct (Float64.ltb (X p) (MinX box)); auto.
  - destruct (Float64.ltb (Y p) (MinY box)); auto.
  - destruct (Float64.gtb (X p) (MaxX box)); auto.
  - destruct (Float64.gtb (Y p) (MaxY box)); auto.
Qed.

Lemma BBoxFromPoints_covering p ps :
  Forall numeric (p :: ps) -> covering_box (BBoxFromPoints (p :: ps)) (p :: ps).
Proof.
  intros Hnum. unfold covering_box. rewrite Forall_forall. intros q Hq.
  rewrite BBoxFromPoints_bounds. unfold covers. cbn [MinX MinY MaxX MaxY].
  assert (HX : In (X q) (X p :: map X ps)) by (apply (in_map X (p :: ps)); exact Hq).
  assert (HY : In (Y q) (Y p :: map Y ps)) by (apply (in_map Y (p :: ps)); exact Hq).
  rewrite run_min_leb, run_max_leb, run_min_leb, run_max_leb;
    try reflexivity; try assumption;
    intros y Hy;
    first [ apply (numeric_X (p :: ps)); assumption
          | apply (numeric_Y (p :: ps)); assumption ].
Qed.

Lemma BBoxFromPoints_least p ps c :
  covering_box c (p :: ps) -> box_within (BBoxFromPoints (p :: ps)) c.
Proof.
  unfold covering_box, covers. rewrite Forall_forall. intros Hc.
  assert (H : forall q, In q (p :: ps) ->
            Float64.leb (MinX c) (X q) = true /\ Float64.leb (X q) (MaxX c) = true /\
            Float64.leb (MinY c) (Y q) = true /\ Float64.leb (Y q) (MaxY c) = true).
  { intros q Hq. specialize (Hc q Hq). rewrite !andb_true_iff in Hc. tauto. }
  rewrite BBoxFromPoints_bounds. unfold box_within. cbn [MinX MinY MaxX MaxY].
  pose proof (run_best_In Float64.ltb (X p) (map X ps)) as H1.
  pose proof (run_best_In Float64.ltb (Y p) (map Y ps)) as H2.
  pose proof (run_best_In Float64.gtb (X p) (map X ps)) as H3.
  pose proof (run_best_In Float64.gtb (Y p) (map Y ps)) as H4.
  change (X p :: map X ps) with (map X (p :: ps)) in H1, H3.
  change (Y p :: map Y ps) with (map Y (p :: ps)) in H2, H4.
  apply in_map_iff in H1, H2, H3, H4.
  destruct H1 as [q1 [E1 I1]], H2 as [q2 [E2 I2]], H3 as [q3 [E3 I3]], H4 as [q4 [E4 I4]].
  rewrite <- E1, <- E2, <- E3, <- E4.
  repeat split; [apply (H q1 I1) | apply (H q2 I2) | apply (H q3 I3) | apply (H q4 I4)].
Qed.

(** No box covers a point with a NaN coordinate: without the condition
    on NaN a point sequence has no covering box at all. *)
Lemma NaN_point_not_covered (b : Box) (p : Point) :
  Float64.is_nan (X p) = true \/ Float64.is_nan (Y p) = true -> covers b p = false.
Proof.
  unfold covers. intros [H|H].
  - rewrite (Float64Facts.leb_nan_r (MinX b) (X p) H). reflexivity.
  - rewrite (Float64Facts.leb_nan_r (MinY b) (Y p) H).
    rewrite andb_false_r. reflexivity.
Qed.

(** C5 as stated fails when a coordinate is NaN: for the points
    (NaN, 0), (1, 0) the first point seeds MinX and MaxX with NaN, no later
    comparison with NaN succeeds, and the returned box {NaN, 0, NaN, 0}
    does not cover the point (1, 0), so it is not a covering box. *)
Lemma BBoxFromPoints_NaN_not_covering :
  BBoxFromPoints [mkPoint Float64.NaN 0; mkPoint (Float64.of_int 1) 0]
    = mkBox Float64.NaN 0 Float64.NaN 0
  /\ covers (BBoxFromPoints [mkPoint Float64.NaN 0; mkPoint (Float64.of_int 1) 0])
            (mkPoint (Float64.of_int 1) 0) = false
  /\ ~ minimal_covering_box
         (BBoxFromPoints [mkPoint Float64.NaN 0; mkPoint (Float64.of_int 1) 0])
         [mkPoint Float64.NaN 0; mkPoint (Float64.of_int 1) 0].
Proof.
  assert (E : covers (BBoxFromPoints [mkPoint Float64.NaN 0; mkPoint (Float64.of_int 1) 0])
                     (mkPoint (Float64.of_int 1) 0) = false) by (vm_compute; reflexivity).
  split; [vm_compute; reflexivity|]. split; [exact E|].
  intros [Hc _]. unfold covering_box in Hc. rewrite Forall_forall in Hc.
  specialize (Hc (mkPoint (Float64.of_int 1) 0) (or_intror (or_introl eq_refl))).
  rewrite E in Hc. discriminate.
Qed.

(** C5 (amended): for every non-empty point sequence [p :: ps],
    [BBoxFromPoints] seeds all four bounds with the first point and folds
    [relax] over the rest; every [relax] step leaves each bound as it is or
    replaces it by the point's coordinate lying strictly beyond it (lower
    for MinX/MinY, higher for MaxX/MaxY); when no coordinate is NaN the
    result is the minimal covering box: it covers every point and lies
    within every box that covers them; and the points (1,2), (-1,5), (3,0)
    give the box {MinX:-1, MinY:0, MaxX:3, MaxY:5}. *)
Theorem BBoxFromPoints_minimal_covering_box (p : Point) (ps : list Point) :
  BBoxFromPoints (p :: ps) = fold_left relax ps (mkBox (X p) (Y p) (X p) (Y p))
  /\ (forall box q, relaxed_by box (relax box q) q)
  /\ (Forall numeric (p :: ps) ->
      minimal_covering_box (BBoxFromPoints (p :: ps)) (p :: ps))
  /\ BBoxFromPoints example_points =
     mkBox (Float64.of_int (-1)) (Float64.of_int 0) (Float64.of_int 3) (Float64.of_int 5).
Proof.
  split; [apply BBoxFromPoints_cons|].
  split; [intros box q; apply relax_relaxed_by|].
  split; [|vm_compute; reflexivity].
  intros Hnum. split.
  - apply BBoxFromPoints_covering. exact Hnum.
  - intros c Hc. apply BBoxFromPoints_least. exact Hc.
Qed.

Lemma BBoxFromPoints_minimal_covering_box_witness :
  Forall numeric example_points /\
  minimal_covering_box (BBoxFromPoints example_points) example_points.
Proof.
  assert (H : Forall numeric example_points).
  { repeat constructor; vm_compute; reflexivity. }
  split; [exact H|].
  exact (proj1 (proj2 (proj2 (BBoxFromPoints_minimal_covering_box
           (mkPoint (Float64.of_int 1) (Float64.of_int 2))
           [ mkPoint (Float64.of_int (-1)) (Float64.of_int 5);
             mkPoint (Float64.of_int 3) (Float64.of_int 0) ]))) H).
Defined.

(** C6: [BBoxFromPoints] of the empty sequence is the zero box
    {0, 0, 0, 0}: the loop body never runs and the named result keeps its
    zero value, whose four bounds are the float64 +0. *)
Theorem BBoxFromPoints_empty :
  BBoxFromPoints [] = mkBox 0 0 0 0
  /\ BBoxFromPoints [] = Box_zero
  /\ Float64.value (MinX (BBoxFromPoints [])) = S754_zero false
  /\ BBoxFromPoints [] =
     mkBox (Float64.of_int 0) (Float64.of_int 0) (Float64.of_int 0) (Float64.of_int 0).
Proof. repeat split; vm_compute; reflexivity. Qed.

(** C7: for all boxes A and B, [Extend] is idempotent (extending A by B
    twice gives what extending once gives), is a no-op when B is contained
    in A (A.MinX <= B.MinX, A.MinY <= B.MinY, B.MaxX <= A.MaxX,
    B.MaxY <= A.MaxY), and never narrows a bound: each bound of the result
    is the old bound, bit for bit, or lies strictly beyond it. *)
Theorem Extend_idempotent_contained_never_narrows (A B : Box) :
  Extend (Extend A B) B = Extend A B
  /\ (box_within B A -> Extend A B = A)
  /\ never_narrows A (Extend A B).
Proof.
  split; [|split].
  - rewrite (Extend_bounds (Extend A B) B), (Extend_bounds A B).
    cbn [MinX MinY MaxX MaxY].
    f_equal.
    + destruct (Float64.ltb (MinX B) (MinX A)) eqn:E;
        [rewrite Float64Facts.ltb_irrefl | rewrite E]; reflexivity.
    + destruct (Float64.ltb (MinY B) (MinY A)) eqn:E;
        [rewrite Float64Facts.ltb_irrefl | rewrite E]; reflexivity.
    + destruct (Float64.gtb (MaxX B) (MaxX A)) eqn:E;
        [rewrite gtb_irrefl | rewrite E]; reflexivity.
    + destruct (Float64.gtb (MaxY B) (MaxY A)) eqn:E;
        [rewrite gtb_irrefl | rewrite E]; reflexivity.
  - intros (H1 & H2 & H3 & H4). rewrite Extend_bounds.
    rewrite !Float64Facts.gtb_ltb.
    rewrite (Float64Facts.leb_not_ltb _ _ H1), (Float64Facts.leb_not_ltb _ _ H2),
      (Float64Facts.leb_not_ltb _ _ H3), (Float64Facts.leb_not_ltb _ _ H4).
    destruct A; reflexivity.
  - rewrite Extend_bounds. unfold never_narrows. cbn [MinX MinY MaxX MaxY].
    repeat split.
    + destruct (Float64.ltb (MinX B) (MinX A)) eqn:E; auto.
    + destruct (Float64.ltb (MinY B) (MinY A)) eqn:E; auto.
    + destruct (Float64.gtb (MaxX B) (MaxX A)) eqn:E; auto.
    + destruct (Float64.gtb (MaxY B) (MaxY A)) eqn:E; auto.
    + destruct (Float64.ltb (MinX B) (MinX A)) eqn:E.
      * rewrite Float64Facts.gtb_ltb. apply Float64Facts.ltb_asym. exact E.
      * apply gtb_irrefl.
    + destruct (Float64.ltb (MinY B) (MinY A)) eqn:E.
      * rewrite Float64Facts.gtb_ltb. apply Float64Facts.ltb_asym. exact E.
      * apply gtb_irrefl.
    + destruct (Float64.gtb (MaxX B) (MaxX A)) eqn:E.
      * rewrite Float64Facts.gtb_ltb in E. apply Float64Facts.ltb_asym. exact E.
      * apply Float64Facts.ltb_irrefl.
    + destruct (Float64.gtb (MaxY B) (MaxY A)) eqn:E.
      * rewrite Float64Facts.gtb_ltb in E. apply Float64Facts.ltb_asym. exact E.
      * apply Float64Facts.ltb_irrefl.
Qed.

Lemma Extend_idempotent_contained_never_narrows_witness :
  box_within inner_box outer_box /\ Extend outer_box inner_box = outer_box.
Proof.
  assert (H : box_within inner_box outer_box).
  { repeat split; vm_compute; reflexivity. }
  split; [exact H|].
  exact (proj1 (proj2 (Extend_idempotent_contained_never_narrows outer_box inner_box)) H).
Defined.

(** C4: for every PolyLine and every Polygon, [BBox()] is
    [BBoxFromPoints] of the [Points] slice, whatever the stored [Box]
    field holds; two values that differ at most in the stored [Box] have
    the same [BBox()]. *)
Theorem BBox_from_Points_not_stored_Box :
  (forall p : PolyLine, PolyLine_BBox p = BBoxFromPoints (Points p))
  /\ (forall p : Polygon, Polygon_BBox p = BBoxFromPoints (Polygon_Points p))
  /\ (forall box box' np npt parts points,
        PolyLine_BBox (mkPolyLine box np npt parts points) =
        PolyLine_BBox (mkPolyLine box' np npt parts points))
  /\ (forall box box' np npt parts points,
        Polygon_BBox (mkPolygon box np npt parts points) =
        Polygon_BBox (mkPolygon box' np npt parts points)).
Proof. repeat split. Qed.

(* ------------------------------------------------------------------ *)
(** ** Field descriptors *)

Lemma skipn_repeat {A : Type} (z : A) (k n : nat) :
  skipn k (repeat z n) = repeat z (n - k).
Proof.
  revert n. induction k as [|k IH]; intros n.
  - rewrite Nat.sub_0_r. reflexivity.
  - destruct n as [|n]; [reflexivity|]. cbn [repeat skipn]. apply IH.
Qed.

(** Copying into a zero-filled array of [n] elements: the first [n]
    elements of the source, then zeros up to [n]. *)
Lemma copy_into_zeros {A : Type} (z : A) (n : nat) (src : list A) :
  copy (repeat z n) src = firstn n src ++ repeat z (n - length src).
Proof.
  unfold copy. rewrite repeat_length, skipn_repeat.
  destruct (Nat.le_gt_cases n (length src)) as [H|H].
  - rewrite Nat.min_l by exact H.
    replace (n - n)%nat with O by lia. replace (n - length src)%nat with O by lia.
    reflexivity.
  - rewrite Nat.min_r by lia.
    rewrite (firstn_all2 (n := n) src) by lia. rewrite firstn_all. reflexivity.
Qed.

(** C9: for every name and length, [StringField(name, length)] has
    Fieldtype 'C' and Size = length; its Name holds the first 11 bytes of
    the name followed by zero bytes up to 11 bytes in all (so a longer name
    is cut after its 11th byte and a shorter one is zero-padded); Precision,
    Addr and Padding are zero; and [StringField("City", 50)] has Fieldtype
    'C', Size 50 and Name "City" followed by seven zero bytes. *)
Theorem StringField_spec (name : string) (len : byte) :
  Fieldtype (StringField name len) = "C"%byte
  /\ Size (StringField name len) = len
  /\ Name (StringField name len) =
     firstn 11 (bytes_of_string name) ++
     repeat Byte.x00 (11 - length (bytes_of_string name))
  /\ length (Name (StringField name len)) = 11%nat
  /\ Precision (StringField name len) = Byte.x00
  /\ Addr (StringField name len) = repeat Byte.x00 4
  /\ Padding (StringField name len) = repeat Byte.x00 14
  /\ StringField "City" (byte.of_Z 50) =
     mkField ("C" :: "i" :: "t" :: "y" :: repeat Byte.x00 7)%byte "C"%byte
             (repeat Byte.x00 4) (byte.of_Z 50) Byte.x00 (repeat Byte.x00 14)
  /\ Name (StringField "ExceedsElevenChars" (byte.of_Z 10)) =
     bytes_of_string "ExceedsElev".
Proof.
  assert (E : Name (StringField name len) =
              firstn 11 (bytes_of_string name) ++
              repeat Byte.x00 (11 - length (bytes_of_string name))).
  { unfold StringField. cbn [Name Field_zero]. apply copy_into_zeros. }
  repeat split; try reflexivity; try exact E.
  rewrite E, length_app, repeat_length, length_firstn. lia.
Qed.

(* ------------------------------------------------------------------ *)
(** ** The codec *)

Section Codec.

Lemma length_e_int32 x : length (e_int32 x) = 4%nat.
Proof. apply length_le_split. Qed.

Lemma length_e_float64 x : length (e_float64 x) = 8%nat.
Proof. apply length_le_split. Qed.

Lemma length_e_Point p : length (e_Point p) = 16%nat.
Proof. unfold e_Point. rewrite length_app, !length_e_float64. reflexivity. Qed.

Lemma length_e_Box b : length (e_Box b) = 32%nat.
Proof. unfold e_Box. rewrite !length_app, !length_e_float64. reflexivity. Qed.

Lemma length_e_slice_int32 l : length (e_slice e_int32 l) = (4 * length l)%nat.
Proof. apply List.length_flat_map. apply length_e_int32. Qed.

Lemma length_e_slice_Point l : length (e_slice e_Point l) = (16 * length l)%nat.
Proof. apply List.length_flat_map. apply length_e_Point. Qed.

Lemma int32_of_uint32_of_int32 x : wf_int32 x -> int32_of_uint32 (uint32_of_int32 x) = x.
Proof.
  unfold wf_int32, int32_of_uint32, uint32_of_int32. intros H.
  destruct (Z.ltb_spec (x mod 2 ^ 32) (2 ^ 31)) as [L|L];
    revert L; change (2 ^ 32) with 4294967296 in *;
    change (2 ^ 31) with 2147483648 in *; intros L;
    Z.div_mod_to_equations; lia.
Qed.

Lemma d_uint32_e_uint32 u rest :
  d_uint32 (e_uint32 u ++ rest) = (u mod 2 ^ 32, rest).
Proof.
  unfold d_uint32, e_uint32.
  rewrite List.firstn_app_l, List.skipn_app_r by (rewrite length_le_split; reflexivity).
  rewrite le_combine_split. reflexivity.
Qed.

Lemma d_uint64_e_uint64 u rest :
  d_uint64 (e_uint64 u ++ rest) = (u mod 2 ^ 64, rest).
Proof.
  unfold d_uint64, e_uint64.
  rewrite List.firstn_app_l, List.skipn_app_r by (rewrite length_le_split; reflexivity).
  rewrite le_combine_split. reflexivity.
Qed.

Lemma d_int32_e_int32 x rest :
  wf_int32 x -> d_int32 (e_int32 x ++ rest) = (x, rest).
Proof.
  intros H. unfold d_int32, e_int32. rewrite d_uint32_e_uint32.
  unfold uint32_of_int32 at 1. rewrite Z.mod_mod by (apply Z.pow_nonzero; lia).
  fold (uint32_of_int32 x). rewrite int32_of_uint32_of_int32 by exact H. reflexivity.
Qed.

Lemma d_float64_e_float64 x rest :
  Float64.wf x -> d_float64 (e_float64 x ++ rest) = (x, rest).
Proof.
  intros H. unfold d_float64, e_float64. rewrite d_uint64_e_uint64.
  rewrite Z.mod_small by exact H. reflexivity.
Qed.

Lemma d_Point_e_Point p rest :
  wf_Point p -> d_Point (e_Point p ++ rest) = (p, rest).
Proof.
  intros [HX HY]. unfold d_Point, e_Point. rewrite <- app_assoc.
  rewrite d_float64_e_float64 by exact HX.
  rewrite d_float64_e_float64 by exact HY.
  destruct p; reflexivity.
Qed.

Lemma d_Box_e_Box b rest :
  wf_Box b -> d_Box (e_Box b ++ rest) = (b, rest).
Proof.
  intros (H1 & H2 & H3 & H4). unfold d_Box, e_Box. rewrite <- !app_assoc.
  rewrite d_float64_e_float64 by exact H1.
  rewrite d_float64_e_float64 by exact H2.
  rewrite d_float64_e_float64 by exact H3.
  rewrite d_float64_e_float64 by exact H4.
  destruct b; reflexivity.
Qed.

(** A slice decodes element by element when each element does. *)
Lemma d_slice_e_slice {A : Type} (P : A -> Prop)
    (enc : A -> list byte) (dec : decoder -> A * decoder) :
  (forall a rest, P a -> dec (enc a ++ rest) = (a, rest)) ->
  forall l rest, Forall P l ->
    d_slice dec (length l) (e_slice enc l ++ rest) = (l, rest).
Proof.
  intros Hdec l. induction l as [|a l IH]; intros rest Hl.
  - reflexivity.
  - inversion Hl as [|? ? Ha Hl']; subst.
    cbn [length d_slice e_slice flat_map]. rewrite <- app_assoc.
    rewrite Hdec by exact Ha. fold (e_slice enc l). rewrite IH by exact Hl'.
    reflexivity.
Qed.

(** The length of a decoded slice is the length asked for. *)
Lemma length_d_slice {A : Type} (dec : decoder -> A * decoder) n d :
  length (fst (d_slice dec n d)) = n.
Proof.
  revert d. induction n as [|n IH]; intros d.
  - reflexivity.
  - cbn [d_slice]. destruct (dec d) as [a d']. specialize (IH d').
    destruct (d_slice dec n d') as [l d'']. cbn [fst length] in *. congruence.
Qed.

(** [io.ReadFull] when the source holds the bytes. *)
Lemma io_ReadFull_enough buf more e n :
  length buf = n ->
  io_ReadFull (mkReader (buf ++ more) e) n = (buf, mkReader more e, None).
Proof.
  intros <-. unfold io_ReadFull. cbn [pending closing].
  rewrite length_app.
  destruct (Nat.leb_spec (length buf) (length buf + length more)) as [_|H]; [|lia].
  rewrite List.firstn_app_l, List.skipn_app_r by reflexivity. reflexivity.
Qed.

(** [io.ReadFull] when the source is too short: it is drained. *)
Lemma io_ReadFull_short r n :
  (length (pending r) < n)%nat ->
  exists err, io_ReadFull r n = (pending r, mkReader [] (closing r), Some err).
Proof.
  intros H. unfold io_ReadFull.
  destruct (Nat.leb_spec n (length (pending r))) as [H'|_]; [lia|].
  eexists. reflexivity.
Qed.

Lemma binary_Read_enough {A : Type} size (value : decoder -> A * decoder)
    buf more e (data : A) :
  length buf = size ->
  binary_Read size value (mkReader (buf ++ more) e) data =
  (fst (value buf), mkReader more e, None).
Proof.
  intros H. unfold binary_Read. rewrite io_ReadFull_enough by exact H. reflexivity.
Qed.

(** On a short source the data is left as it was and the source is
    drained; an error comes back. *)
Lemma binary_Read_short {A : Type} size (value : decoder -> A * decoder) r (data : A) :
  (length (pending r) < size)%nat ->
  exists err, binary_Read size value r data = (data, mkReader [] (closing r), Some err).
Proof.
  intros H. unfold binary_Read.
  destruct (io_ReadFull_short r size H) as [err ->]. eexists. reflexivity.
Qed.

(** The length of the data never changes in a slice read. *)
Lemma binary_Read_slice_length {A : Type} k (dec : decoder -> A * decoder) r (data : list A) :
  length (fst (fst (binary_Read (k * length data) (d_slice dec (length data)) r data)))
  = length data.
Proof.
  unfold binary_Read. destruct (io_ReadFull r (k * length data)) as [[buf r'] [e|]].
  - reflexivity.
  - cbn [fst]. apply length_d_slice.
Qed.

Lemma make_Some {A : Type} (zero : A) n :
  0 <= n -> make zero n = Some (repeat zero (Z.to_nat n)).
Proof.
  intros H. unfold make. destruct (Z.ltb_spec n 0); [lia|reflexivity].
Qed.

Lemma make_None {A : Type} (zero : A) n : n < 0 -> make zero n = None.
Proof.
  intros H. unfold make. destruct (Z.ltb_spec n 0); [reflexivity|lia].
Qed.

Lemma make_length {A : Type} (zero : A) n l :
  make zero n = Some l -> Z.of_nat (length l) = n /\ l = repeat zero (length l).
Proof.
  unfold make. destruct (Z.ltb_spec n 0) as [|H]; [discriminate|].
  intros [= <-]. rewrite repeat_length. split; [lia|reflexivity].
Qed.

End Codec.

(** What [write] leaves in a buffer. *)
Lemma Point_bytes_eq p : Point_bytes p = e_Point p.
Proof. reflexivity. Qed.

Lemma PolyLine_bytes_eq p :
  PolyLine_bytes p =
  e_Box (PolyLine_Box p) ++ e_int32 (NumParts p) ++ e_int32 (NumPoints p) ++
  e_slice e_int32 (Parts p) ++ e_slice e_Point (Points p).
Proof.
  cbv [PolyLine_bytes PolyLine_write binary_Write Write Buffer_Writer].
  rewrite app_nil_l, <- !app_assoc. reflexivity.
Qed.

Lemma Polygon_bytes_eq p :
  Polygon_bytes p =
  e_Box (Polygon_Box p) ++ e_int32 (Polygon_NumParts p) ++ e_int32 (Polygon_NumPoints p) ++
  e_slice e_int32 (Polygon_Parts p) ++ e_slice e_Point (Polygon_Points p).
Proof.
  cbv [Polygon_bytes Polygon_write binary_Write Write Buffer_Writer].
  rewrite app_nil_l, <- !app_assoc. reflexivity.
Qed.

(** [Polygon.read] and [Polygon.write] are [PolyLine.read] and
    [PolyLine.write] under the conversion between the two types. *)
Lemma Polygon_read_PolyLine_read p file :
  Polygon_read p file =
  match PolyLine_read (PolyLine_of_Polygon p) file with
  | Returned (q, file') => Returned (Polygon_of_PolyLine q, file')
  | Panicked => Panicked
  end.
Proof.
  unfold Polygon_read, PolyLine_read. cbn [PolyLine_of_Polygon PolyLine_Box NumParts NumPoints].
  destruct (binary_Read 32 d_Box file (Polygon_Box p)) as [[box f1] e1].
  destruct (binary_Read 4 d_int32 f1 (Polygon_NumParts p)) as [[np f2] e2].
  destruct (binary_Read 4 d_int32 f2 (Polygon_NumPoints p)) as [[npt f3] e3].
  destruct (make (A := int32) 0 np) as [parts|]; [|reflexivity].
  destruct (make Point_zero npt) as [points|]; [|reflexivity].
  destruct (binary_Read (4 * length parts) (d_slice d_int32 (length parts)) f3 parts)
    as [[parts' f4] e4].
  destruct (binary_Read (16 * length points) (d_slice d_Point (length points)) f4 points)
    as [[points' f5] e5].
  reflexivity.
Qed.


(** Reading back what [PolyLine.write] wrote. *)
Lemma PolyLine_read_bytes x x0 more e :
  valid_PolyLine x ->
  PolyLine_read x0 (mkReader (PolyLine_bytes x ++ more) e) = Returned (x, mkReader more e).
Proof.
  intros (HB & HNP & HNPT & HParts & HPoints & ENP & ENPT).
  rewrite PolyLine_bytes_eq, <- !app_assoc. unfold PolyLine_read.
  rewrite binary_Read_enough by apply length_e_Box.
  rewrite <- (app_nil_r (e_Box (PolyLine_Box x))), d_Box_e_Box by exact HB. cbn [fst].
  rewrite binary_Read_enough by apply length_e_int32.
  rewrite <- (app_nil_r (e_int32 (NumParts x))), d_int32_e_int32 by exact HNP. cbn [fst].
  rewrite binary_Read_enough by apply length_e_int32.
  rewrite <- (app_nil_r (e_int32 (NumPoints x))), d_int32_e_int32 by exact HNPT. cbn [fst].
  rewrite (make_Some (A := int32) 0 (NumParts x)) by lia.
  rewrite (make_Some Point_zero (NumPoints x)) by lia.
  rewrite !repeat_length. rewrite ENP, ENPT, !Nat2Z.id.
  rewrite binary_Read_enough by apply length_e_slice_int32.
  rewrite <- (app_nil_r (e_slice e_int32 (Parts x))).
  rewrite (d_slice_e_slice wf_int32 e_int32 d_int32) by (auto using d_int32_e_int32).
  cbn [fst].
  rewrite binary_Read_enough by apply length_e_slice_Point.
  rewrite <- (app_nil_r (e_slice e_Point (Points x))).
  rewrite (d_slice_e_slice wf_Point e_Point d_Point) by (auto using d_Point_e_Point).
  cbn [fst]. rewrite <- ENP, <- ENPT. destruct x; reflexivity.
Qed.

(** C1: for each of Null, Point, PolyLine and Polygon and every valid
    value x of it (fields in the range of their Go types, NumParts =
    len(Parts), NumPoints = len(Points)), reading from a source that holds
    the bytes x writes, into any receiver, returns normally with the
    receiver equal to x, field by field and bit for bit, and leaves in the
    source exactly what followed those bytes. *)
Theorem decode_encode_roundtrip :
  (forall (x x0 : Null) more e,
      Null_read x0 (mkReader (Null_bytes x ++ more) e) = (x, mkReader more e))
  /\ (forall (x x0 : Point) more e,
      wf_Point x ->
      Point_read x0 (mkReader (Point_bytes x ++ more) e) = (x, mkReader more e))
  /\ (forall (x x0 : PolyLine) more e,
      valid_PolyLine x ->
      PolyLine_read x0 (mkReader (PolyLine_bytes x ++ more) e)
      = Returned (x, mkReader more e))
  /\ (forall (x x0 : Polygon) more e,
      valid_Polygon x ->
      Polygon_read x0 (mkReader (Polygon_bytes x ++ more) e)
      = Returned (x, mkReader more e)).
Proof.
  split; [|split; [|split]].
  - intros [] [] more e. reflexivity.
  - intros x x0 more e Hx. rewrite Point_bytes_eq. unfold Point_read.
    rewrite binary_Read_enough by apply length_e_Point.
    rewrite <- (app_nil_r (e_Point x)), d_Point_e_Point by exact Hx. reflexivity.
  - intros x x0 more e Hx. apply PolyLine_read_bytes. exact Hx.
  - intros x x0 more e Hx. rewrite Polygon_read_PolyLine_read.
    change (Polygon_bytes x) with (PolyLine_bytes (PolyLine_of_Polygon x)).
    rewrite PolyLine_read_bytes by exact Hx. destruct x; reflexivity.
Qed.

Lemma example_PolyLine_valid : valid_PolyLine example_PolyLine.
Proof.
  unfold valid_PolyLine, wf_Box, wf_int32, wf_Point, Float64.wf.
  cbn [example_PolyLine PolyLine_Box NumParts NumPoints Parts Points].
  split_all; vm_compute; first [reflexivity | discriminate].
Qed.

Lemma decode_encode_roundtrip_witness :
  valid_PolyLine example_PolyLine /\
  PolyLine_read (mkPolyLine Box_zero 0 0 [] [])
                (mkReader (PolyLine_bytes example_PolyLine ++ []) EOF)
  = Returned (example_PolyLine, mkReader [] EOF).
Proof.
  split; [exact example_PolyLine_valid|].
  exact (proj1 (proj2 (proj2 decode_encode_roundtrip))
           example_PolyLine (mkPolyLine Box_zero 0 0 [] []) [] EOF
           example_PolyLine_valid).
Defined.

(** C3: for every Box, NumParts, NumPoints, Parts and Points, the Polygon
    and the PolyLine built from them write the same bytes: the same calls
    of [Write] on any writer, hence the same contents in a buffer. *)
Theorem Polygon_PolyLine_same_bytes
    (box : Box) (numParts numPoints : int32) (parts : list int32) (points : list Point) :
  Polygon_bytes (mkPolygon box numParts numPoints parts points) =
  PolyLine_bytes (mkPolyLine box numParts numPoints parts points)
  /\ (forall (W : Type) (H : Writer W) (file : W),
        Polygon_write (mkPolygon box numParts numPoints parts points) file =
        PolyLine_write (mkPolyLine box numParts numPoints parts points) file)
  /\ PolyLine_bytes (mkPolyLine box numParts numPoints parts points) =
     e_Box box ++ e_int32 numParts ++ e_int32 numPoints ++
     e_slice e_int32 parts ++ e_slice e_Point points.
Proof.
  split; [reflexivity|]. split; [reflexivity|]. apply PolyLine_bytes_eq.
Qed.

(* ------------------------------------------------------------------ *)
(** ** How [read] ends *)

(** [PolyLine.read] panics exactly when one of the two counts is
    negative; otherwise it returns, with the counts it read and slices of
    those lengths. *)
Lemma PolyLine_read_ends (p : PolyLine) (file : Reader) :
  let np := fst (PolyLine_counts p file) in
  let npt := snd (PolyLine_counts p file) in
  if (np <? 0) || (npt <? 0) then PolyLine_read p file = Panicked
  else exists box parts points file',
      PolyLine_read p file = Returned (mkPolyLine box np npt parts points, file')
      /\ length parts = Z.to_nat np /\ length points = Z.to_nat npt.
Proof.
  unfold PolyLine_counts, PolyLine_read.
  destruct (binary_Read 32 d_Box file (PolyLine_Box p)) as [[box f1] e1].
  destruct (binary_Read 4 d_int32 f1 (NumParts p)) as [[np f2] e2].
  destruct (binary_Read 4 d_int32 f2 (NumPoints p)) as [[npt f3] e3].
  cbn [fst snd]. unfold make.
  destruct (np <? 0); cbn [orb]; [reflexivity|].
  destruct (npt <? 0); [reflexivity|].
  match goal with
  | |- context [binary_Read ?s ?v f3 ?d] =>
    assert (L1 : length (fst (fst (binary_Read s v f3 d))) = Z.to_nat np)
      by (etransitivity;
          [apply (binary_Read_slice_length 4 d_int32 f3 (repeat 0 (Z.to_nat np)))
          |apply repeat_length]);
    revert L1; destruct (binary_Read s v f3 d) as [[parts f4] e4]; intros L1
  end.
  match goal with
  | |- context [binary_Read ?s ?v f4 ?d] =>
    assert (L2 : length (fst (fst (binary_Read s v f4 d))) = Z.to_nat npt)
      by (etransitivity;
          [apply (binary_Read_slice_length 16 d_Point f4 (repeat Point_zero (Z.to_nat npt)))
          |apply repeat_length]);
    revert L2; destruct (binary_Read s v f4 d) as [[points f5] e5]; intros L2
  end.
  cbn [fst] in L1, L2.
  exists box, parts, points, f5. split; [reflexivity|]. split; assumption.
Qed.

Lemma PolyLine_read_lengths p file p' file' :
  PolyLine_read p file = Returned (p', file') ->
  Z.of_nat (length (Parts p')) = NumParts p' /\
  Z.of_nat (length (Points p')) = NumPoints p'.
Proof.
  intros H. pose proof (PolyLine_read_ends p file) as E. cbv zeta in E.
  destruct (fst (PolyLine_counts p file) <? 0) eqn:E1;
    [cbn [orb] in E; congruence|].
  destruct (snd (PolyLine_counts p file) <? 0) eqn:E2;
    [cbn [orb] in E; congruence|].
  cbn [orb] in E. destruct E as (box & parts & points & f & R & L1 & L2).
  rewrite R in H. injection H as <- <-. cbn [Parts Points NumParts NumPoints].
  apply Z.ltb_ge in E1, E2. rewrite L1, L2. lia.
Qed.

Lemma PolyLine_read_returns p file :
  0 <= fst (PolyLine_counts p file) -> 0 <= snd (PolyLine_counts p file) ->
  exists p' file', PolyLine_read p file = Returned (p', file').
Proof.
  intros H1 H2. pose proof (PolyLine_read_ends p file) as E. cbv zeta in E.
  apply Z.ltb_ge in H1, H2. rewrite H1, H2 in E. cbn [orb] in E.
  destruct E as (box & parts & points & f & R & _). eauto.
Qed.

Lemma PolyLine_read_panics p file :
  fst (PolyLine_counts p file) < 0 \/ snd (PolyLine_counts p file) < 0 ->
  PolyLine_read p file = Panicked.
Proof.
  intros H. pose proof (PolyLine_read_ends p file) as E. cbv zeta in E.
  assert (C : (fst (PolyLine_counts p file) <? 0) || (snd (PolyLine_counts p file) <? 0) = true).
  { apply orb_true_iff. rewrite !Z.ltb_lt. exact H. }
  rewrite C in E. exact E.
Qed.

(** A slice read that cannot be served leaves the zero-filled slice as
    it is and drains the source. *)
Lemma binary_Read_slice_unfilled {A : Type} (k : nat) (dec : decoder -> A * decoder)
    (z : A) (n : nat) (r : Reader) :
  (length (pending r) < k * n)%nat \/ (pending r = [] /\ n = O) ->
  exists err,
    binary_Read (k * n) (d_slice dec n) r (repeat z n)
    = (repeat z n, mkReader [] (closing r), err).
Proof.
  intros [H|[H ->]].
  - destruct (binary_Read_short (k * n) (d_slice dec n) r (repeat z n) H) as [err E].
    exists (Some err). exact E.
  - exists None. rewrite Nat.mul_0_r. unfold binary_Read, io_ReadFull. rewrite H.
    reflexivity.
Qed.

(** [PolyLine.read] on a source that holds the header (Box, NumParts,
    NumPoints) and then fewer bytes than the two arrays need. *)
Lemma PolyLine_read_truncated_arrays p0 b np npt rest e :
  wf_Box b -> wf_int32 np -> wf_int32 npt -> 0 <= np -> 0 <= npt ->
  (length rest < 4 * Z.to_nat np + 16 * Z.to_nat npt)%nat ->
  PolyLine_read p0 (mkReader (e_Box b ++ e_int32 np ++ e_int32 npt ++ rest) e) =
  Returned
    (mkPolyLine b np npt
       (if (4 * Z.to_nat np <=? length rest)%nat
        then fst (d_slice d_int32 (Z.to_nat np) (firstn (4 * Z.to_nat np) rest))
        else repeat 0 (Z.to_nat np))
       (repeat Point_zero (Z.to_nat npt)),
     mkReader [] e).
Proof.
  intros HB HNP HNPT Hnp Hnpt Hshort. unfold PolyLine_read.
  rewrite binary_Read_enough by apply length_e_Box.
  rewrite <- (app_nil_r (e_Box b)), d_Box_e_Box by exact HB. cbn [fst].
  rewrite binary_Read_enough by apply length_e_int32.
  rewrite <- (app_nil_r (e_int32 np)), d_int32_e_int32 by exact HNP. cbn [fst].
  rewrite binary_Read_enough by apply length_e_int32.
  rewrite <- (app_nil_r (e_int32 npt)), d_int32_e_int32 by exact HNPT. cbn [fst].
  rewrite (make_Some (A := int32) 0 np) by exact Hnp.
  rewrite (make_Some Point_zero npt) by exact Hnpt.
  rewrite !repeat_length.
  destruct (Nat.leb_spec (4 * Z.to_nat np) (length rest)) as [L|L].
  - rewrite <- (firstn_skipn (4 * Z.to_nat np) rest) at 1.
    rewrite binary_Read_enough by (rewrite length_firstn; lia).
    cbn [fst].
    destruct (binary_Read_slice_unfilled 16 d_Point Point_zero (Z.to_nat npt)
                (mkReader (skipn (4 * Z.to_nat np) rest) e)) as [err E].
    { left. cbn [pending]. rewrite length_skipn. lia. }
    rewrite E. reflexivity.
  - destruct (binary_Read_slice_unfilled 4 d_int32 0 (Z.to_nat np) (mkReader rest e))
      as [err1 E1].
    { left. exact L. }
    rewrite E1.
    destruct (binary_Read_slice_unfilled 16 d_Point Point_zero (Z.to_nat npt)
                (mkReader [] (closing (mkReader rest e)))) as [err2 E2].
    { cbn [pending length]. destruct (Z.to_nat npt); [right; auto | left; lia]. }
    rewrite E2. reflexivity.
Qed.

(** What [binary.Read] leaves in the source: [size] bytes fewer, or
    nothing. *)
Lemma binary_Read_rest {A : Type} size (value : decoder -> A * decoder) r (data : A) :
  closing (snd (fst (binary_Read size value r data))) = closing r /\
  length (pending (snd (fst (binary_Read size value r data))))
  = (length (pending r) - size)%nat.
Proof.
  unfold binary_Read, io_ReadFull.
  destruct (Nat.leb_spec size (length (pending r))) as [H|H]; cbn [fst snd closing pending].
  - split; [reflexivity|]. apply length_skipn.
  - split; [reflexivity|]. cbn [length]. lia.
Qed.

(** [PolyLine.read] on a source too short for Box and NumParts: the
    counts are those of the receiver, the slices are zero-filled, the
    source is drained. *)
Lemma PolyLine_read_short_header p file :
  (length (pending file) < 36)%nat -> 0 <= NumParts p -> 0 <= NumPoints p ->
  PolyLine_read p file =
  Returned
    (mkPolyLine (fst (fst (binary_Read 32 d_Box file (PolyLine_Box p))))
                (NumParts p) (NumPoints p)
                (repeat 0 (Z.to_nat (NumParts p)))
                (repeat Point_zero (Z.to_nat (NumPoints p))),
     mkReader [] (closing file)).
Proof.
  intros Hlen Hnp Hnpt. unfold PolyLine_read.
  destruct (binary_Read_rest 32 d_Box file (PolyLine_Box p)) as [C1 L1].
  destruct (binary_Read 32 d_Box file (PolyLine_Box p)) as [[box r1] e1].
  cbn [fst snd] in C1, L1 |- *.
  destruct (binary_Read_short 4 d_int32 r1 (NumParts p)) as [err2 E2]; [lia|].
  rewrite E2.
  destruct (binary_Read_short 4 d_int32 (mkReader [] (closing r1)) (NumPoints p))
    as [err3 E3]; [cbn [pending length]; lia|].
  rewrite E3. cbn [closing].
  rewrite (make_Some (A := int32) 0 (NumParts p)) by exact Hnp.
  rewrite (make_Some Point_zero (NumPoints p)) by exact Hnpt.
  rewrite !repeat_length.
  destruct (binary_Read_slice_unfilled 4 d_int32 0 (Z.to_nat (NumParts p))
              (mkReader [] (closing r1))) as [err4 E4].
  { cbn [pending length]. destruct (Z.to_nat (NumParts p)); [right; auto | left; lia]. }
  rewrite E4. cbn [closing].
  destruct (binary_Read_slice_unfilled 16 d_Point Point_zero (Z.to_nat (NumPoints p))
              (mkReader [] (closing r1))) as [err5 E5].
  { cbn [pending length]. destruct (Z.to_nat (NumPoints p)); [right; auto | left; lia]. }
  rewrite E5. cbn [closing]. rewrite C1. reflexivity.
Qed.

(** C2 as stated fails: on the source that ends right after NumPoints,
    [PolyLine.read] does not fail; it returns normally, with Parts and
    Points of the declared lengths 1 and 2 filled with zeros. *)
Lemma PolyLine_read_truncated_returns_normally :
  PolyLine_read PolyLine_zero truncated_after_NumPoints
  = Returned (mkPolyLine (PolyLine_Box example_PolyLine) 1 2 [0] [Point_zero; Point_zero],
              mkReader [] EOF)
  /\ PolyLine_read PolyLine_zero truncated_after_NumPoints <> Panicked.
Proof.
  assert (R : PolyLine_read PolyLine_zero truncated_after_NumPoints
              = Returned (mkPolyLine (PolyLine_Box example_PolyLine) 1 2 [0]
                            [Point_zero; Point_zero], mkReader [] EOF))
    by (vm_compute; reflexivity).
  split; [exact R|]. rewrite R. discriminate.
Qed.

(* ------------------------------------------------------------------ *)
(** ** No error channel *)






(* ------------------------------------------------------------------ *)
(** ** More on the order of float64 *)

Lemma cmp_em_not_Gt_trans e1 m1 e2 m2 e3 m3 :
  Float64.cmp_em e1 m1 e2 m2 <> Gt -> Float64.cmp_em e2 m2 e3 m3 <> Gt ->
  Float64.cmp_em e1 m1 e3 m3 <> Gt.
Proof. rewrite !Float64Facts.cmp_em_Gt. lia. Qed.

Lemma cmp_em_not_Lt_trans e1 m1 e2 m2 e3 m3 :
  Float64.cmp_em e1 m1 e2 m2 <> Lt -> Float64.cmp_em e2 m2 e3 m3 <> Lt ->
  Float64.cmp_em e1 m1 e3 m3 <> Lt.
Proof. rewrite !Float64Facts.cmp_em_Lt. lia. Qed.

Lemma SFleb_trans x y z : SFleb x y = true -> SFleb y z = true -> SFleb x z = true.
Proof.
  unfold SFleb.
  destruct x as [sx|sx| |sx mx ex], y as [sy|sy| |sy my ey], z as [sz|sz| |sz mz ez];
    rewrite ?Float64Facts.SFcompare_finite;
    try (simpl; discriminate);
    try (destruct sx; simpl; try discriminate);
    try (destruct sy; simpl; try discriminate);
    try (destruct sz; simpl; try discriminate);
    try reflexivity.
  - intros H1 H2.
    pose proof (cmp_em_not_Lt_trans ex mx ey my ez mz) as T.
    destruct (Float64.cmp_em ex mx ey my), (Float64.cmp_em ey my ez mz);
      simpl in H1, H2; try discriminate;
      destruct (Float64.cmp_em ex mx ez mz); simpl; try reflexivity;
      exfalso; apply T; congruence.
  - intros H1 H2.
    pose proof (cmp_em_not_Gt_trans ex mx ey my ez mz) as T.
    destruct (Float64.cmp_em ex mx ey my), (Float64.cmp_em ey my ez mz);
      simpl in H1, H2; try discriminate;
      destruct (Float64.cmp_em ex mx ez mz); simpl; try reflexivity;
      exfalso; apply T; congruence.
Qed.

Lemma leb_trans x y z :
  Float64.leb x y = true -> Float64.leb y z = true -> Float64.leb x z = true.
Proof. apply SFleb_trans. Qed.

Lemma ltb_leb x y : Float64.ltb x y = true -> Float64.leb x y = true.
Proof.
  unfold Float64.ltb, Float64.leb, SFltb, SFleb.
  destruct (SFcompare (Float64.value x) (Float64.value y)) as [[]|];
    intros; try reflexivity; discriminate.
Qed.

Lemma ltb_not_nan x y :
  Float64.ltb x y = true -> Float64.is_nan x = false /\ Float64.is_nan y = false.
Proof.
  unfold Float64.ltb, Float64.is_nan, SFltb.
  destruct (Float64.value x), (Float64.value y); simpl; intros; try discriminate; auto.
Qed.

Lemma leb_not_nan x y :
  Float64.leb x y = true -> Float64.is_nan x = false /\ Float64.is_nan y = false.
Proof.
  unfold Float64.leb, Float64.is_nan, SFleb.
  destruct (Float64.value x), (Float64.value y); simpl; intros; try discriminate; auto.
Qed.

(** Around a number [y]: when neither [x < y] nor [y < z], not [x < z]. *)
Lemma ltb_negative_trans x y z :
  Float64.is_nan y = false ->
  Float64.ltb x y = false -> Float64.ltb y z = false -> Float64.ltb x z = false.
Proof.
  intros Hy H1 H2. destruct (Float64.ltb x z) eqn:E; [|reflexivity].
  destruct (ltb_not_nan _ _ E) as [Hx Hz].
  pose proof (Float64Facts.not_ltb_leb y x Hy Hx H1) as L1.
  pose proof (Float64Facts.not_ltb_leb z y Hz Hy H2) as L2.
  pose proof (leb_trans _ _ _ L2 L1) as L.
  apply Float64Facts.leb_not_ltb in L. congruence.
Qed.

(* ------------------------------------------------------------------ *)
(** ** Further properties of Extend and BBoxFromPoints *)

Lemma pick_min_leb a b :
  Float64.is_nan a = false -> Float64.is_nan b = false ->
  Float64.leb (if Float64.ltb b a then b else a) a = true /\
  Float64.leb (if Float64.ltb b a then b else a) b = true.
Proof.
  intros Ha Hb. destruct (Float64.ltb b a) eqn:E.
  - split; [apply ltb_leb; exact E | apply Float64Facts.leb_refl; exact Hb].
  - split; [apply Float64Facts.leb_refl; exact Ha
           | apply Float64Facts.not_ltb_leb; assumption].
Qed.

Lemma pick_max_leb a b :
  Float64.is_nan a = false -> Float64.is_nan b = false ->
  Float64.leb a (if Float64.gtb b a then b else a) = true /\
  Float64.leb b (if Float64.gtb b a then b else a) = true.
Proof.
  intros Ha Hb. rewrite Float64Facts.gtb_ltb. destruct (Float64.ltb a b) eqn:E.
  - split; [apply ltb_leb; exact E | apply Float64Facts.leb_refl; exact Hb].
  - split; [apply Float64Facts.leb_refl; exact Ha
           | apply Float64Facts.not_ltb_leb; assumption].
Qed.

(** X1: when no bound of A or B is NaN, the receiver after
    [A.Extend(B)] contains both A and B, and it lies within every box that
    contains both: it is their least common cover. *)
Theorem Extend_least_common_cover (A B : Box) :
  numeric_box A -> numeric_box B ->
  box_within A (Extend A B) /\ box_within B (Extend A B) /\
  (forall C, box_within A C -> box_within B C -> box_within (Extend A B) C).
Proof.
  intros (A1 & A2 & A3 & A4) (B1 & B2 & B3 & B4).
  rewrite Extend_bounds. unfold box_within. cbn [MinX MinY MaxX MaxY].
  destruct (pick_min_leb _ _ A1 B1) as [M1 M1'].
  destruct (pick_min_leb _ _ A2 B2) as [M2 M2'].
  destruct (pick_max_leb _ _ A3 B3) as [M3 M3'].
  destruct (pick_max_leb _ _ A4 B4) as [M4 M4'].
  split; [tauto|]. split; [tauto|].
  intros C (C1 & C2 & C3 & C4) (D1 & D2 & D3 & D4).
  destruct (Float64.ltb (MinX B) (MinX A)), (Float64.ltb (MinY B) (MinY A)),
    (Float64.gtb (MaxX B) (MaxX A)), (Float64.gtb (MaxY B) (MaxY A)); tauto.
Qed.

Lemma Extend_least_common_cover_witness :
  box_within outer_box (Extend outer_box inner_box) /\
  box_within inner_box (Extend outer_box inner_box).
Proof.
  assert (HA : numeric_box outer_box) by (repeat split; vm_compute; reflexivity).
  assert (HB : numeric_box inner_box) by (repeat split; vm_compute; reflexivity).
  destruct (Extend_least_common_cover outer_box inner_box HA HB) as (H1 & H2 & _).
  exact (conj H1 H2).
Defined.

Section RunBestMerge.
Context {A : Type} (lt : A -> A -> bool) (ok : A -> Prop).
Hypothesis lt_trans : forall x y z, lt x y = true -> lt y z = true -> lt x z = true.
Hypothesis lt_negative_trans :
  forall x y z, ok y -> lt x y = false -> lt y z = false -> lt x z = false.

Lemma run_best_app m xs ys :
  run_best lt m (xs ++ ys) = run_best lt (run_best lt m xs) ys.
Proof. unfold run_best. apply fold_left_app. Qed.

(** Running on from [m] over [y0 :: ys] is comparing [m] with the best
    of [y0 :: ys]. *)
Lemma run_best_merge m y0 ys :
  Forall ok (y0 :: ys) ->
  run_best lt m (y0 :: ys) =
  if lt (run_best lt y0 ys) m then run_best lt y0 ys else m.
Proof.
  revert m y0. induction ys as [|y1 ys IH]; intros m y0 Hok.
  - reflexivity.
  - inversion Hok as [|? ? Hy0 Hrest]; subst.
    rewrite run_best_cons. rewrite (IH _ y1 Hrest). rewrite (IH y0 y1 Hrest).
    set (r := run_best lt y1 ys).
    destruct (lt y0 m) eqn:E1; destruct (lt r y0) eqn:E2.
    + rewrite (lt_trans _ _ _ E2 E1). reflexivity.
    + rewrite E1. reflexivity.
    + reflexivity.
    + rewrite E1. rewrite (lt_negative_trans _ _ _ Hy0 E2 E1). reflexivity.
Qed.
End RunBestMerge.

Lemma gtb_negative_trans x y z :
  Float64.is_nan y = false ->
  Float64.gtb x y = false -> Float64.gtb y z = false -> Float64.gtb x z = false.
Proof.
  rewrite !Float64Facts.gtb_ltb. intros Hy H1 H2.
  apply (ltb_negative_trans z y x Hy H2 H1).
Qed.

Lemma numeric_Forall_X points :
  Forall numeric points -> Forall (fun x => Float64.is_nan x = false) (map X points).
Proof.
  intros H. rewrite Forall_forall. intros x Hx. apply (numeric_X points x H Hx).
Qed.

Lemma numeric_Forall_Y points :
  Forall numeric points -> Forall (fun y => Float64.is_nan y = false) (map Y points).
Proof.
  intros H. rewrite Forall_forall. intros y Hy. apply (numeric_Y points y H Hy).
Qed.

(** X2: the box of two point sequences put one after the other is the
    box of the first extended by the box of the second, bit for bit, when
    both are non-empty and the second holds no NaN. *)
Theorem BBoxFromPoints_app_Extend (p : Point) (ps : list Point) (q : Point) (qs : list Point) :
  Forall numeric (q :: qs) ->
  BBoxFromPoints ((p :: ps) ++ (q :: qs)) =
  Extend (BBoxFromPoints (p :: ps)) (BBoxFromPoints (q :: qs)).
Proof.
  intros Hq. pose proof (numeric_Forall_X _ Hq) as HX. pose proof (numeric_Forall_Y _ Hq) as HY.
  cbn [map] in HX, HY.
  rewrite Extend_bounds. rewrite <- app_comm_cons, !BBoxFromPoints_bounds.
  cbn [MinX MinY MaxX MaxY]. rewrite !map_app, !run_best_app. cbn [map].
  rewrite (run_best_merge Float64.ltb _ Float64Facts.ltb_trans ltb_negative_trans _ _ _ HX).
  rewrite (run_best_merge Float64.ltb _ Float64Facts.ltb_trans ltb_negative_trans _ _ _ HY).
  rewrite (run_best_merge Float64.gtb _ gtb_trans gtb_negative_trans _ _ _ HX).
  rewrite (run_best_merge Float64.gtb _ gtb_trans gtb_negative_trans _ _ _ HY).
  reflexivity.
Qed.

Lemma BBoxFromPoints_app_Extend_witness :
  BBoxFromPoints ([mkPoint (Float64.of_int 1) (Float64.of_int 2)] ++
                  [mkPoint (Float64.of_int (-1)) (Float64.of_int 5);
                   mkPoint (Float64.of_int 3) (Float64.of_int 0)]) =
  Extend (BBoxFromPoints [mkPoint (Float64.of_int 1) (Float64.of_int 2)])
         (BBoxFromPoints [mkPoint (Float64.of_int (-1)) (Float64.of_int 5);
                          mkPoint (Float64.of_int 3) (Float64.of_int 0)]).
Proof.
  apply (BBoxFromPoints_app_Extend (mkPoint (Float64.of_int 1) (Float64.of_int 2)) []
           (mkPoint (Float64.of_int (-1)) (Float64.of_int 5))
           [mkPoint (Float64.of_int 3) (Float64.of_int 0)]).
  repeat constructor; vm_compute; reflexivity.
Defined.

(** X3: each bound of the box of a non-empty sequence is the coordinate
    of one of its points, bit for bit, whatever the coordinates are:
    [BBoxFromPoints] never makes up a bound. *)
Theorem BBoxFromPoints_bounds_attained (p : Point) (ps : list Point) :
  (exists q, In q (p :: ps) /\ MinX (BBoxFromPoints (p :: ps)) = X q) /\
  (exists q, In q (p :: ps) /\ MinY (BBoxFromPoints (p :: ps)) = Y q) /\
  (exists q, In q (p :: ps) /\ MaxX (BBoxFromPoints (p :: ps)) = X q) /\
  (exists q, In q (p :: ps) /\ MaxY (BBoxFromPoints (p :: ps)) = Y q).
Proof.
  rewrite BBoxFromPoints_bounds. cbn [MinX MinY MaxX MaxY].
  pose proof (run_best_In Float64.ltb (X p) (map X ps)) as H1.
  pose proof (run_best_In Float64.ltb (Y p) (map Y ps)) as H2.
  pose proof (run_best_In Float64.gtb (X p) (map X ps)) as H3.
  pose proof (run_best_In Float64.gtb (Y p) (map Y ps)) as H4.
  change (X p :: map X ps) with (map X (p :: ps)) in H1, H3.
  change (Y p :: map Y ps) with (map Y (p :: ps)) in H2, H4.
  apply in_map_iff in H1, H2, H3, H4.
  destruct H1 as [q1 [E1 I1]], H2 as [q2 [E2 I2]], H3 as [q3 [E3 I3]], H4 as [q4 [E4 I4]].
  repeat split; [exists q1 | exists q2 | exists q3 | exists q4]; auto.
Qed.

(** X4: the box of a non-empty sequence without NaN is well formed:
    MinX <= MaxX and MinY <= MaxY. *)
Theorem BBoxFromPoints_Min_le_Max (p : Point) (ps : list Point) :
  Forall numeric (p :: ps) ->
  Float64.leb (MinX (BBoxFromPoints (p :: ps))) (MaxX (BBoxFromPoints (p :: ps))) = true /\
  Float64.leb (MinY (BBoxFromPoints (p :: ps))) (MaxY (BBoxFromPoints (p :: ps))) = true.
Proof.
  intros H. pose proof (BBoxFromPoints_covering p ps H) as C.
  unfold covering_box in C. rewrite Forall_forall in C.
  specialize (C p (or_introl eq_refl)). unfold covers in C.
  rewrite !andb_true_iff in C. destruct C as [[[C1 C2] C3] C4].
  split; eapply leb_trans; eassumption.
Qed.

Lemma BBoxFromPoints_Min_le_Max_witness :
  Float64.leb (MinX (BBoxFromPoints example_points)) (MaxX (BBoxFromPoints example_points)) = true /\
  Float64.leb (MinY (BBoxFromPoints example_points)) (MaxY (BBoxFromPoints example_points)) = true.
Proof.
  apply (BBoxFromPoints_Min_le_Max (mkPoint (Float64.of_int 1) (Float64.of_int 2))
           [ mkPoint (Float64.of_int (-1)) (Float64.of_int 5);
             mkPoint (Float64.of_int 3) (Float64.of_int 0) ]).
  repeat constructor; vm_compute; reflexivity.
Defined.

Lemma run_best_repeat {A : Type} (lt : A -> A -> bool) (x : A) (n : nat) :
  lt x x = false -> run_best lt x (repeat x n) = x.
Proof.
  intros H. induction n as [|n IH]; [reflexivity|].
  cbn [repeat]. rewrite run_best_cons, H. exact IH.
Qed.

(** X5: a PolyLine or Polygon all of whose points are one point p (one
    or more copies) has the [BBox()] of the Point p, whatever is stored in
    its Box field and whatever p is, NaN included. *)
Theorem degenerate_BBox_is_Point_BBox (p : Point) (n : nat)
    (box : Box) (np npt : int32) (parts : list int32) :
  PolyLine_BBox (mkPolyLine box np npt parts (repeat p (S n))) = Point_BBox p /\
  Polygon_BBox (mkPolygon box np npt parts (repeat p (S n))) = Point_BBox p.
Proof.
  unfold PolyLine_BBox, Polygon_BBox, Point_BBox. cbn [Points Polygon_Points repeat].
  rewrite BBoxFromPoints_bounds, !map_repeat.
  rewrite !run_best_repeat
    by (apply Float64Facts.ltb_irrefl || apply gtb_irrefl).
  split; reflexivity.
Qed.

(* ------------------------------------------------------------------ *)
(** ** Further properties of the field descriptors *)

Lemma length_stored_name name : length (stored_name name) = 11%nat.
Proof. unfold stored_name. rewrite length_app, repeat_length, length_firstn. lia. Qed.

Lemma NumberField_Name name len : Name (NumberField name len) = stored_name name.
Proof. unfold NumberField. cbn [Name Field_zero]. apply copy_into_zeros. Qed.

Lemma FloatField_Name name len prec : Name (FloatField name len prec) = stored_name name.
Proof. unfold FloatField. cbn [Name Field_zero]. apply copy_into_zeros. Qed.

Lemma DateField_Name name : Name (DateField name) = stored_name name.
Proof. unfold DateField. cbn [Name Field_zero]. apply copy_into_zeros. Qed.

Lemma StringField_Name name len : Name (StringField name len) = stored_name name.
Proof. unfold StringField. cbn [Name Field_zero]. apply copy_into_zeros. Qed.

Lemma StringField_eq name len :
  StringField name len =
  mkField (stored_name name) "C"%byte (repeat Byte.x00 4) len Byte.x00 (repeat Byte.x00 14).
Proof. rewrite <- (StringField_Name name len). reflexivity. Qed.

Lemma NumberField_eq name len :
  NumberField name len =
  mkField (stored_name name) "N"%byte (repeat Byte.x00 4) len Byte.x00 (repeat Byte.x00 14).
Proof. rewrite <- (NumberField_Name name len). reflexivity. Qed.

Lemma FloatField_eq name len prec :
  FloatField name len prec =
  mkField (stored_name name) "F"%byte (repeat Byte.x00 4) len prec (repeat Byte.x00 14).
Proof. rewrite <- (FloatField_Name name len prec). reflexivity. Qed.

Lemma DateField_eq name :
  DateField name =
  mkField (stored_name name) "D"%byte (repeat Byte.x00 4) (byte.of_Z 8) Byte.x00
          (repeat Byte.x00 14).
Proof. rewrite <- (DateField_Name name). reflexivity. Qed.

(** X6: for every name and length, [NumberField(name, length)] is the
    descriptor with Fieldtype 'N', Size = length, Precision 0, zero Addr
    and Padding, and the first 11 bytes of the name, zero-padded to 11
    bytes, as Name. *)
Theorem NumberField_spec (name : string) (len : byte) :
  NumberField name len =
  mkField (stored_name name) "N"%byte (repeat Byte.x00 4) len Byte.x00 (repeat Byte.x00 14)
  /\ length (Name (NumberField name len)) = 11%nat.
Proof.
  split; [apply NumberField_eq|]. rewrite NumberField_Name. apply length_stored_name.
Qed.

(** X7: for every name, length and precision,
    [FloatField(name, length, precision)] is the descriptor with Fieldtype
    'F', Size = length, Precision = precision, zero Addr and Padding, and
    the first 11 bytes of the name, zero-padded to 11 bytes, as Name. *)
Theorem FloatField_spec (name : string) (len prec : byte) :
  FloatField name len prec =
  mkField (stored_name name) "F"%byte (repeat Byte.x00 4) len prec (repeat Byte.x00 14)
  /\ length (Name (FloatField name len prec)) = 11%nat.
Proof.
  split; [apply FloatField_eq|]. rewrite FloatField_Name. apply length_stored_name.
Qed.

(** X8: for every name, [DateField(name)] has Fieldtype 'D' and Size 8,
    and is otherwise the [StringField(name, 8)]: the two descriptors differ
    in the Fieldtype alone. *)
Theorem DateField_spec (name : string) :
  DateField name =
  mkField (stored_name name) "D"%byte (repeat Byte.x00 4) (byte.of_Z 8) Byte.x00
          (repeat Byte.x00 14)
  /\ DateField name =
     mkField (Name (StringField name (byte.of_Z 8))) "D"%byte
             (Addr (StringField name (byte.of_Z 8))) (Size (StringField name (byte.of_Z 8)))
             (Precision (StringField name (byte.of_Z 8)))
             (Padding (StringField name (byte.of_Z 8)))
  /\ Fieldtype (DateField name) <> Fieldtype (StringField name (byte.of_Z 8)).
Proof.
  split; [|split].
  - apply DateField_eq.
  - reflexivity.
  - cbn [DateField StringField Fieldtype]. discriminate.
Qed.

(** X9: the constructors look at the first 11 bytes of the name only:
    two names that agree on them give the same descriptor, so names that
    differ only after the 11th byte collide. *)
Theorem constructors_first_11_bytes (name name' : string) (len prec : byte) :
  firstn 11 (bytes_of_string name) = firstn 11 (bytes_of_string name') ->
  StringField name len = StringField name' len /\
  NumberField name len = NumberField name' len /\
  FloatField name len prec = FloatField name' len prec /\
  DateField name = DateField name'.
Proof.
  intros H.
  assert (E : stored_name name = stored_name name').
  { unfold stored_name. rewrite H. f_equal. f_equal.
    apply (f_equal (@length byte)) in H. rewrite !length_firstn in H. lia. }
  rewrite !StringField_eq, !NumberField_eq, !FloatField_eq, !DateField_eq, E.
  repeat split.
Qed.

Lemma constructors_first_11_bytes_witness :
  StringField "ExceedsElevenChars" (byte.of_Z 10) = StringField "ExceedsElevenBytes" (byte.of_Z 10).
Proof.
  apply (constructors_first_11_bytes "ExceedsElevenChars" "ExceedsElevenBytes"
           (byte.of_Z 10) Byte.x00).
  reflexivity.
Defined.

(** X10: [String()] of a descriptor made by a constructor is always 11
    bytes long: the first 11 bytes of the name followed by the zero bytes of
    the padding, which are not stripped.  It is the name itself exactly when
    the name is 11 bytes long. *)
Theorem Field_String_padded (name : string) (len prec : byte) :
  let f := StringField name len in
  bytes_of_string (Field_String f) = stored_name name
  /\ length (bytes_of_string (Field_String f)) = 11%nat
  /\ (Field_String f = name <-> length (bytes_of_string name) = 11%nat)
  /\ Field_String (NumberField name len) = Field_String f
  /\ Field_String (FloatField name len prec) = Field_String f
  /\ Field_String (DateField name) = Field_String f.
Proof.
  cbv zeta. unfold Field_String, bytes_of_string.
  rewrite NumberField_Name, FloatField_Name, DateField_Name, StringField_Name.
  rewrite list_byte_of_string_of_list_byte.
  split; [reflexivity|]. split; [apply length_stored_name|].
  split; [|repeat split].
  split.
  - intros E. apply (f_equal list_byte_of_string) in E.
    rewrite list_byte_of_string_of_list_byte in E.
    rewrite <- E. apply length_stored_name.
  - intros L. unfold stored_name, bytes_of_string. rewrite L.
    rewrite <- L, firstn_all, Nat.sub_diag. cbn [repeat]. rewrite app_nil_r.
    apply string_of_list_byte_of_string.
Qed.

Lemma Field_String_padded_witness :
  Field_String (StringField "ElevenBytes" (byte.of_Z 11)) = "ElevenBytes"%string.
Proof.
  apply (proj2 (proj1 (proj2 (proj2 (Field_String_padded "ElevenBytes" (byte.of_Z 11) Byte.x00))))).
  reflexivity.
Defined.

(* ------------------------------------------------------------------ *)
(** ** Further properties of the codec *)

Lemma firstn_add {A : Type} (a b : nat) (l : list A) :
  firstn (a + b) l = firstn a l ++ firstn b (skipn a l).
Proof.
  revert l. induction a as [|a IH]; intros l.
  - reflexivity.
  - destruct l as [|x l]; [destruct b; reflexivity|].
    cbn [Nat.add firstn skipn app]. rewrite IH. reflexivity.
Qed.

(** [binary.Read] when the source holds at least the bytes asked for. *)
Lemma binary_Read_ge {A : Type} size (value : decoder -> A * decoder) r (data : A) :
  (size <= length (pending r))%nat ->
  binary_Read size value r data =
  (fst (value (firstn size (pending r))), mkReader (skipn size (pending r)) (closing r), None).
Proof.
  intros H. unfold binary_Read, io_ReadFull.
  destruct (Nat.leb_spec size (length (pending r))); [reflexivity|lia].
Qed.

Lemma uint32_of_int32_of_uint32 u :
  0 <= u < 2 ^ 32 -> uint32_of_int32 (int32_of_uint32 u) = u.
Proof.
  unfold uint32_of_int32, int32_of_uint32. intros H.
  destruct (Z.ltb_spec u (2 ^ 31)) as [L|L];
    revert H L; change (2 ^ 32) with 4294967296; change (2 ^ 31) with 2147483648;
    intros H L; Z.div_mod_to_equations; lia.
Qed.

Lemma le_combine_firstn_bound (k : nat) (d : list byte) :
  0 <= le_combine (firstn k d) < 2 ^ (8 * Z.of_nat k).
Proof.
  pose proof (le_combine_bound (firstn k d)) as B.
  pose proof (firstn_le_length k d) as L.
  assert (2 ^ (8 * Z.of_nat (length (firstn k d))) <= 2 ^ (8 * Z.of_nat k))
    by (apply Z.pow_le_mono_r; lia).
  lia.
Qed.

Lemma consumes_float64 : consumes 8 e_float64 d_float64.
Proof.
  intros d H. split; [|reflexivity].
  unfold e_float64, d_float64, e_uint64, d_uint64. cbn [fst].
  apply split_le_combine'. apply firstn_length_le. exact H.
Qed.

Lemma consumes_int32 : consumes 4 e_int32 d_int32.
Proof.
  intros d H. split; [|reflexivity].
  unfold e_int32, d_int32, e_uint32, d_uint32. cbn [fst].
  rewrite uint32_of_int32_of_uint32 by apply (le_combine_firstn_bound 4 d).
  apply split_le_combine'. apply firstn_length_le. exact H.
Qed.

Lemma consumes_Point : consumes 16 e_Point d_Point.
Proof.
  intros d H. split; [|apply (skipn_skipn 8 8 d)].
  change (e_Point (fst (d_Point d)))
    with (e_float64 (fst (d_float64 d)) ++ e_float64 (fst (d_float64 (skipn 8 d)))).
  rewrite (proj1 (consumes_float64 d ltac:(lia))).
  rewrite (proj1 (consumes_float64 (skipn 8 d) ltac:(rewrite length_skipn; lia))).
  symmetry. apply (firstn_add 8 8 d).
Qed.

Lemma consumes_Box : consumes 32 e_Box d_Box.
Proof.
  intros d H. split; [|unfold d_Box, d_float64, d_uint64; cbn [snd];
                       rewrite !skipn_skipn; reflexivity].
  change (e_Box (fst (d_Box d)))
    with (e_float64 (fst (d_float64 d)) ++
          e_float64 (fst (d_float64 (skipn 8 d))) ++
          e_float64 (fst (d_float64 (skipn 8 (skipn 8 d)))) ++
          e_float64 (fst (d_float64 (skipn 8 (skipn 8 (skipn 8 d)))))).
  rewrite (proj1 (consumes_float64 d ltac:(lia))).
  rewrite (proj1 (consumes_float64 (skipn 8 d) ltac:(rewrite length_skipn; lia))).
  rewrite (proj1 (consumes_float64 (skipn 8 (skipn 8 d))
                    ltac:(rewrite !length_skipn; lia))).
  rewrite (proj1 (consumes_float64 (skipn 8 (skipn 8 (skipn 8 d)))
                    ltac:(rewrite !length_skipn; lia))).
  change 32%nat with (8 + (8 + (8 + 8)))%nat.
  rewrite !firstn_add. reflexivity.
Qed.

Lemma consumes_slice {A : Type} (k : nat) (enc : A -> list byte)
    (dec : decoder -> A * decoder) (n : nat) :
  consumes k enc dec -> consumes (k * n) (e_slice enc) (d_slice dec n).
Proof.
  intros Hc. induction n as [|n IH]; intros d H.
  - rewrite Nat.mul_0_r. split; reflexivity.
  - replace (k * S n)%nat with (k + k * n)%nat in * by lia.
    cbn [d_slice]. destruct (Hc d ltac:(lia)) as [E1 E2].
    destruct (dec d) as [a d1]. cbn [fst snd] in E1, E2. subst d1.
    destruct (IH (skipn k d) ltac:(rewrite length_skipn; lia)) as [E3 E4].
    destruct (d_slice dec n (skipn k d)) as [l d2]. cbn [fst snd] in E3, E4 |- *.
    split.
    + cbn [e_slice flat_map]. fold (e_slice enc l). rewrite E1, E3.
      symmetry. apply firstn_add.
    + rewrite E4, skipn_skipn. f_equal. lia.
Qed.

(** X11: the size of what [write] produces: nothing for Null, 16 bytes
    for a Point, and 40 + 4 * len(Parts) + 16 * len(Points) bytes for a
    PolyLine or a Polygon, whatever the field values (NumParts and NumPoints
    do not enter). *)
Theorem encoded_sizes :
  (forall n : Null, length (Null_bytes n) = 0%nat)
  /\ (forall p : Point, length (Point_bytes p) = 16%nat)
  /\ (forall p : PolyLine,
        length (PolyLine_bytes p) =
        (40 + 4 * length (Parts p) + 16 * length (Points p))%nat)
  /\ (forall p : Polygon,
        length (Polygon_bytes p) =
        (40 + 4 * length (Polygon_Parts p) + 16 * length (Polygon_Points p))%nat).
Proof.
  split; [reflexivity|]. split; [intros p; apply length_e_Point|]. split.
  - intros p. rewrite PolyLine_bytes_eq, !length_app, length_e_Box, !length_e_int32,
      length_e_slice_int32, length_e_slice_Point. lia.
  - intros p. rewrite Polygon_bytes_eq, !length_app, length_e_Box, !length_e_int32,
      length_e_slice_int32, length_e_slice_Point. lia.
Qed.

Lemma Point_read_ge p0 file :
  (16 <= length (pending file))%nat ->
  Point_read p0 file =
  (fst (d_Point (firstn 16 (pending file))),
   mkReader (skipn 16 (pending file)) (closing file)).
Proof.
  intros H. unfold Point_read. rewrite binary_Read_ge by exact H. reflexivity.
Qed.

(** [PolyLine.read] on a source that holds the whole record. *)
Lemma PolyLine_read_consumed p0 file p' file' :
  PolyLine_read p0 file = Returned (p', file') ->
  (40 + 4 * Z.to_nat (NumParts p') + 16 * Z.to_nat (NumPoints p')
   <= length (pending file))%nat ->
  pending file = PolyLine_bytes p' ++ pending file' /\ closing file' = closing file.
Proof.
  destruct file as [pend e]. cbv [pending closing]. intros R L.
  unfold PolyLine_read in R.
  rewrite binary_Read_ge in R by (cbv [pending]; lia). cbv [pending closing] in R.
  rewrite binary_Read_ge in R by (cbv [pending]; rewrite length_skipn; lia).
  cbv [pending closing] in R.
  rewrite binary_Read_ge in R by (cbv [pending]; rewrite !length_skipn; lia).
  cbv [pending closing] in R.
  set (b1 := firstn 32 pend) in *.
  set (r1 := skipn 32 pend) in *.
  set (r2 := skipn 4 r1) in *.
  set (r3 := skipn 4 r2) in *.
  set (np := fst (d_int32 (firstn 4 r1))) in *.
  set (npt := fst (d_int32 (firstn 4 r2))) in *.
  unfold make in R.
  destruct (np <? 0); [discriminate|].
  destruct (npt <? 0); [discriminate|].
  rewrite !repeat_length in R.
  revert R.
  match goal with
  | |- context [binary_Read ?s ?v (mkReader r3 e) ?d] =>
    destruct (binary_Read s v (mkReader r3 e) d) as [[parts f4] e4] eqn:R4
  end.
  match goal with
  | |- context [binary_Read ?s ?v f4 ?d] =>
    destruct (binary_Read s v f4 d) as [[points f5] e5] eqn:R5
  end.
  intros R.
  assert (Ep : p' = mkPolyLine (fst (d_Box b1)) np npt parts points) by congruence.
  assert (Ef : file' = f5) by congruence.
  subst p' file'. clear R. cbv [NumParts NumPoints] in L.
  assert (L3 : length r3 = (length pend - 40)%nat)
    by (unfold r3, r2, r1; rewrite !length_skipn; lia).
  rewrite binary_Read_ge in R4 by (cbv [pending]; lia). cbv [pending closing] in R4.
  assert (Eparts : parts = fst (d_slice d_int32 (Z.to_nat np) (firstn (4 * Z.to_nat np) r3)))
    by congruence.
  assert (Ef4 : f4 = mkReader (skipn (4 * Z.to_nat np) r3) e) by congruence.
  subst parts f4. clear R4.
  rewrite binary_Read_ge in R5 by (cbv [pending]; rewrite length_skipn; lia).
  cbv [pending closing] in R5.
  assert (Epoints : points = fst (d_slice d_Point (Z.to_nat npt)
                                    (firstn (16 * Z.to_nat npt) (skipn (4 * Z.to_nat np) r3))))
    by congruence.
  assert (Ef5 : f5 = mkReader (skipn (16 * Z.to_nat npt) (skipn (4 * Z.to_nat np) r3)) e)
    by congruence.
  subst points f5. clear R5.
  cbv [pending closing]. split; [|reflexivity].
  rewrite PolyLine_bytes_eq. cbv [PolyLine_Box NumParts NumPoints Parts Points].
  assert (E1 : e_Box (fst (d_Box b1)) = b1).
  { destruct (consumes_Box b1) as [E _];
      [unfold b1; rewrite firstn_length_le; lia|].
    rewrite E. apply firstn_all2. unfold b1. rewrite length_firstn. lia. }
  assert (E2 : e_int32 np = firstn 4 r1).
  { unfold np. destruct (consumes_int32 (firstn 4 r1)) as [E _];
      [rewrite firstn_length_le; unfold r1; rewrite ?length_skipn; lia|].
    rewrite E. apply firstn_all2. rewrite length_firstn. lia. }
  assert (E3 : e_int32 npt = firstn 4 r2).
  { unfold npt. destruct (consumes_int32 (firstn 4 r2)) as [E _];
      [rewrite firstn_length_le; unfold r2, r1; rewrite ?length_skipn; lia|].
    rewrite E. apply firstn_all2. rewrite length_firstn. lia. }
  assert (E4 : e_slice e_int32 (fst (d_slice d_int32 (Z.to_nat np)
                                      (firstn (4 * Z.to_nat np) r3)))
               = firstn (4 * Z.to_nat np) r3).
  { destruct (consumes_slice 4 e_int32 d_int32 (Z.to_nat np) consumes_int32
                (firstn (4 * Z.to_nat np) r3)) as [E _];
      [rewrite firstn_length_le; lia|].
    rewrite E. apply firstn_all2. rewrite length_firstn. lia. }
  assert (E5 : e_slice e_Point (fst (d_slice d_Point (Z.to_nat npt)
                                      (firstn (16 * Z.to_nat npt)
                                         (skipn (4 * Z.to_nat np) r3))))
               = firstn (16 * Z.to_nat npt) (skipn (4 * Z.to_nat np) r3)).
  { destruct (consumes_slice 16 e_Point d_Point (Z.to_nat npt) consumes_Point
                (firstn (16 * Z.to_nat npt) (skipn (4 * Z.to_nat np) r3))) as [E _];
      [rewrite firstn_length_le; rewrite ?length_skipn; lia|].
    rewrite E. apply firstn_all2. rewrite length_firstn. lia. }
  rewrite E1, E2, E3, E4, E5. cbv [pending]. rewrite <- !app_assoc.
  rewrite !firstn_skipn.
  subst r3; rewrite ?firstn_skipn. subst r2; rewrite ?firstn_skipn.
  subst b1 r1; rewrite ?firstn_skipn. reflexivity.
Qed.

(** X12: decoding then encoding gives the bytes back.  When the source
    holds at least 16 bytes, the Point that [read] leaves encodes to exactly
    the bytes taken from the source; when [PolyLine.read] (or
    [Polygon.read]) returns and the source held the whole record (40 bytes
    and the two arrays of the counts read), the result encodes to exactly
    the bytes taken, and the rest of the source is left in place. *)
Theorem read_then_write_gives_bytes_back :
  (forall p0 file,
      (16 <= length (pending file))%nat ->
      pending file =
      Point_bytes (fst (Point_read p0 file)) ++ pending (snd (Point_read p0 file)))
  /\ (forall p0 file p' file',
      PolyLine_read p0 file = Returned (p', file') ->
      (40 + 4 * Z.to_nat (NumParts p') + 16 * Z.to_nat (NumPoints p')
       <= length (pending file))%nat ->
      pending file = PolyLine_bytes p' ++ pending file')
  /\ (forall p0 file p' file',
      Polygon_read p0 file = Returned (p', file') ->
      (40 + 4 * Z.to_nat (Polygon_NumParts p') + 16 * Z.to_nat (Polygon_NumPoints p')
       <= length (pending file))%nat ->
      pending file = Polygon_bytes p' ++ pending file').
Proof.
  split; [|split].
  - intros p0 file H. rewrite Point_read_ge by exact H. cbn [fst snd pending].
    rewrite Point_bytes_eq.
    destruct (consumes_Point (firstn 16 (pending file))) as [E _];
      [rewrite firstn_length_le; lia|].
    rewrite E, (firstn_all2 (n := 16) (firstn 16 (pending file)))
      by (rewrite length_firstn; lia).
    symmetry. apply firstn_skipn.
  - intros p0 file p' file' R L. apply (PolyLine_read_consumed p0 file p' file' R L).
  - intros p0 file p' file' R L. rewrite Polygon_read_PolyLine_read in R.
    destruct (PolyLine_read (PolyLine_of_Polygon p0) file) as [[q f]|] eqn:Q;
      [|discriminate].
    injection R as <- <-.
    apply (PolyLine_read_consumed _ _ _ _ Q L).
Qed.

Lemma read_then_write_gives_bytes_back_witness :
  pending (mkReader (PolyLine_bytes example_PolyLine ++ [Byte.x01]) EOF) =
  PolyLine_bytes example_PolyLine ++ pending (mkReader [Byte.x01] EOF).
Proof.
  assert (R : PolyLine_read PolyLine_zero
                (mkReader (PolyLine_bytes example_PolyLine ++ [Byte.x01]) EOF)
              = Returned (example_PolyLine, mkReader [Byte.x01] EOF))
    by (vm_compute; reflexivity).
  apply (proj1 (proj2 read_then_write_gives_bytes_back) PolyLine_zero _ _ _ R).
  vm_compute. lia.
Defined.

Lemma Point_read_bytes x x0 more e :
  wf_Point x -> Point_read x0 (mkReader (Point_bytes x ++ more) e) = (x, mkReader more e).
Proof.
  intros Hx. rewrite Point_bytes_eq. unfold Point_read.
  rewrite binary_Read_enough by apply length_e_Point.
  rewrite <- (app_nil_r (e_Point x)), d_Point_e_Point by exact Hx. reflexivity.
Qed.

Lemma PolyLine_write_Buffer (p : PolyLine) (w : Buffer) :
  PolyLine_write p w = w ++ PolyLine_bytes p.
Proof.
  rewrite PolyLine_bytes_eq.
  cbv [PolyLine_write binary_Write Write Buffer_Writer].
  rewrite <- !app_assoc. reflexivity.
Qed.

(** X13: on a buffer every [write] appends the shape's bytes and leaves
    what was there in place; and a Point and a PolyLine written one after
    the other are read back, in that order, from the bytes so written: the
    first [read] stops exactly where the second record starts. *)
Theorem writes_append_reads_in_order :
  (forall (n : Null) (w : Buffer), Null_write n w = w ++ Null_bytes n)
  /\ (forall (p : Point) (w : Buffer), Point_write p w = w ++ Point_bytes p)
  /\ (forall (p : PolyLine) (w : Buffer), PolyLine_write p w = w ++ PolyLine_bytes p)
  /\ (forall (p : Polygon) (w : Buffer), Polygon_write p w = w ++ Polygon_bytes p)
  /\ (forall (a a0 : Point) (b b0 : PolyLine) more e,
        wf_Point a -> valid_PolyLine b ->
        PolyLine_write b (Point_write a ([] : Buffer)) = Point_bytes a ++ PolyLine_bytes b /\
        Point_read a0 (mkReader (PolyLine_write b (Point_write a ([] : Buffer)) ++ more) e)
        = (a, mkReader (PolyLine_bytes b ++ more) e) /\
        PolyLine_read b0 (mkReader (PolyLine_bytes b ++ more) e)
        = Returned (b, mkReader more e)).
Proof.
  split; [intros n w; cbv [Null_write Null_bytes binary_Write Write Buffer_Writer];
          rewrite !app_nil_r; reflexivity|].
  split; [intros p w; reflexivity|].
  split; [exact PolyLine_write_Buffer|].
  split; [intros p w; apply (PolyLine_write_Buffer (PolyLine_of_Polygon p) w)|].
  intros a a0 b b0 more e Ha Hb.
  rewrite PolyLine_write_Buffer.
  change (Point_write a ([] : Buffer)) with (Point_bytes a).
  split; [reflexivity|]. split.
  - rewrite <- app_assoc. apply Point_read_bytes. exact Ha.
  - apply PolyLine_read_bytes. exact Hb.
Qed.

Lemma writes_append_reads_in_order_witness :
  Point_read Point_zero
    (mkReader (PolyLine_write example_PolyLine
                 (Point_write (mkPoint (Float64.of_int 1) (Float64.of_int 2)) ([] : Buffer))
               ++ []) EOF)
  = (mkPoint (Float64.of_int 1) (Float64.of_int 2),
     mkReader (PolyLine_bytes example_PolyLine ++ []) EOF).
Proof.
  apply (proj2 (proj2 (proj2 (proj2 writes_append_reads_in_order)))
           (mkPoint (Float64.of_int 1) (Float64.of_int 2)) Point_zero
           example_PolyLine PolyLine_zero [] EOF).
  - unfold wf_Point, Float64.wf. cbv [X Y].
    split_all; vm_compute; first [reflexivity | discriminate].
  - exact example_PolyLine_valid.
Defined.

(** What the decoders return lies in the range of its Go type. *)
Lemma d_float64_wf d : Float64.wf (fst (d_float64 d)).
Proof. apply (le_combine_firstn_bound 8 d). Qed.

Lemma d_int32_wf d : wf_int32 (fst (d_int32 d)).
Proof.
  unfold d_int32, d_uint32. cbv [fst].
  pose proof (le_combine_firstn_bound 4 d) as B.
  unfold wf_int32, int32_of_uint32.
  change (2 ^ (8 * Z.of_nat 4)) with 4294967296 in B.
  change (2 ^ 31) with 2147483648.
  change (2 ^ 32) with 4294967296.
  destruct (Z.ltb_spec (le_combine (firstn 4 d)) 2147483648); lia.
Qed.

Lemma d_Point_wf d : wf_Point (fst (d_Point d)).
Proof. split; apply d_float64_wf. Qed.

Lemma d_Box_wf d : wf_Box (fst (d_Box d)).
Proof. repeat split; apply d_float64_wf. Qed.

Lemma d_slice_Forall {A : Type} (P : A -> Prop) (dec : decoder -> A * decoder) :
  (forall d, P (fst (dec d))) -> forall n d, Forall P (fst (d_slice dec n d)).
Proof.
  intros H n. induction n as [|n IH]; intros d.
  - constructor.
  - cbn [d_slice]. specialize (H d). destruct (dec d) as [a d1].
    specialize (IH d1). destruct (d_slice dec n d1) as [l d2].
    cbn [fst] in *. constructor; assumption.
Qed.

Lemma Forall_repeat_zero {A : Type} (P : A -> Prop) (z : A) (n : nat) :
  P z -> Forall P (repeat z n).
Proof. intros H. induction n; constructor; assumption. Qed.

(** [binary.Read] leaves data that satisfies [P] when the data did and
    the decoder only makes such data. *)
Lemma binary_Read_keeps {A : Type} (P : A -> Prop) size
    (value : decoder -> A * decoder) r (data : A) :
  P data -> (forall d, P (fst (value d))) ->
  P (fst (fst (binary_Read size value r data))).
Proof.
  intros Hd Hv. unfold binary_Read. destruct (io_ReadFull r size) as [[buf r'] [err|]].
  - exact Hd.
  - apply Hv.
Qed.

Lemma PolyLine_read_valid p file p' file' :
  wf_Box (PolyLine_Box p) -> wf_int32 (NumParts p) -> wf_int32 (NumPoints p) ->
  PolyLine_read p file = Returned (p', file') -> valid_PolyLine p'.
Proof.
  intros HB HNP HNPT R.
  destruct (PolyLine_read_lengths p file p' file' R) as [L1 L2].
  revert R. unfold PolyLine_read.
  pose proof (binary_Read_keeps wf_Box 32 d_Box file (PolyLine_Box p) HB d_Box_wf) as K1.
  destruct (binary_Read 32 d_Box file (PolyLine_Box p)) as [[box f1] e1].
  pose proof (binary_Read_keeps wf_int32 4 d_int32 f1 (NumParts p) HNP d_int32_wf) as K2.
  destruct (binary_Read 4 d_int32 f1 (NumParts p)) as [[np f2] e2].
  pose proof (binary_Read_keeps wf_int32 4 d_int32 f2 (NumPoints p) HNPT d_int32_wf) as K3.
  destruct (binary_Read 4 d_int32 f2 (NumPoints p)) as [[npt f3] e3].
  cbv [fst] in K1, K2, K3. unfold make.
  destruct (np <? 0); [discriminate|]. destruct (npt <? 0); [discriminate|].
  match goal with
  | |- context [binary_Read ?s ?v f3 ?d] =>
    assert (K4 : Forall wf_int32 (fst (fst (binary_Read s v f3 d))))
      by (apply binary_Read_keeps;
          [apply Forall_repeat_zero; unfold wf_int32; lia
          |apply d_slice_Forall; exact d_int32_wf]);
    revert K4; destruct (binary_Read s v f3 d) as [[parts f4] e4]; intros K4
  end.
  match goal with
  | |- context [binary_Read ?s ?v f4 ?d] =>
    assert (K5 : Forall wf_Point (fst (fst (binary_Read s v f4 d))))
      by (apply binary_Read_keeps;
          [apply Forall_repeat_zero; unfold wf_Point, Float64.wf; cbv [Point_zero X Y]; lia
          |apply d_slice_Forall; exact d_Point_wf]);
    revert K5; destruct (binary_Read s v f4 d) as [[points f5] e5]; intros K5
  end.
  cbv [fst] in K4, K5. intros R.
  assert (Ep : p' = mkPolyLine box np npt parts points) by congruence.
  subst p'. cbv [Parts Points NumParts NumPoints] in L1, L2.
  unfold valid_PolyLine. cbv [PolyLine_Box NumParts NumPoints Parts Points].
  split; [exact K1|]. split; [exact K2|]. split; [exact K3|].
  split; [exact K4|]. split; [exact K5|]. split; symmetry; assumption.
Qed.

(** X14: whatever [PolyLine.read] returns into a receiver with fields in
    range is a valid PolyLine (fields in range, len(Parts) = NumParts,
    len(Points) = NumPoints), also when the source was truncated and the
    slices are zero-filled; so it is written and read back unchanged. *)
Theorem PolyLine_read_result_round_trips (p : PolyLine) (file : Reader)
    (p' : PolyLine) (file' : Reader) :
  wf_Box (PolyLine_Box p) -> wf_int32 (NumParts p) -> wf_int32 (NumPoints p) ->
  PolyLine_read p file = Returned (p', file') ->
  valid_PolyLine p' /\
  forall p1 more e,
    PolyLine_read p1 (mkReader (PolyLine_bytes p' ++ more) e) = Returned (p', mkReader more e).
Proof.
  intros HB HNP HNPT R.
  pose proof (PolyLine_read_valid p file p' file' HB HNP HNPT R) as V.
  split; [exact V|]. intros p1 more e. apply PolyLine_read_bytes. exact V.
Qed.

Lemma PolyLine_read_result_round_trips_witness :
  valid_PolyLine (mkPolyLine (PolyLine_Box example_PolyLine) 1 2 [0] [Point_zero; Point_zero]).
Proof.
  assert (R : PolyLine_read PolyLine_zero truncated_after_NumPoints
              = Returned (mkPolyLine (PolyLine_Box example_PolyLine) 1 2 [0]
                            [Point_zero; Point_zero], mkReader [] EOF))
    by (vm_compute; reflexivity).
  refine (proj1 (PolyLine_read_result_round_trips PolyLine_zero truncated_after_NumPoints
                   _ _ _ _ _ R)).
  - unfold wf_Box, Float64.wf. cbv [PolyLine_zero PolyLine_Box Box_zero MinX MinY MaxX MaxY].
    split_all; vm_compute; first [reflexivity | discriminate].
  - unfold wf_int32. cbv [PolyLine_zero NumParts]. lia.
  - unfold wf_int32. cbv [PolyLine_zero NumPoints]. lia.
Defined.

(** X15: [read] takes from the source the bytes of the record, or all
    there is when the source is shorter: after [Point.read] 16 bytes fewer
    are left, after a [PolyLine.read] or [Polygon.read] that returns,
    40 + 4 * NumParts + 16 * NumPoints fewer (counts as read), and nothing
    when the source did not hold that many; so a truncated record leaves the
    source drained. *)
Theorem read_consumes_record_or_all :
  (forall p file,
      length (pending (snd (Point_read p file))) = (length (pending file) - 16)%nat)
  /\ (forall p file p' file',
      PolyLine_read p file = Returned (p', file') ->
      length (pending file') =
      (length (pending file)
       - (40 + 4 * Z.to_nat (NumParts p') + 16 * Z.to_nat (NumPoints p')))%nat
      /\ closing file' = closing file)
  /\ (forall p file p' file',
      PolyLine_read p file = Returned (p', file') ->
      (length (pending file)
       < 40 + 4 * Z.to_nat (NumParts p') + 16 * Z.to_nat (NumPoints p'))%nat ->
      pending file' = []).
Proof.
  assert (G : forall p file p' file',
      PolyLine_read p file = Returned (p', file') ->
      length (pending file') =
      (length (pending file)
       - (40 + 4 * Z.to_nat (NumParts p') + 16 * Z.to_nat (NumPoints p')))%nat
      /\ closing file' = closing file).
  { intros p file p' file'. unfold PolyLine_read.
    destruct (binary_Read_rest 32 d_Box file (PolyLine_Box p)) as [C1 L1].
    destruct (binary_Read 32 d_Box file (PolyLine_Box p)) as [[box f1] e1].
    destruct (binary_Read_rest 4 d_int32 f1 (NumParts p)) as [C2 L2].
    destruct (binary_Read 4 d_int32 f1 (NumParts p)) as [[np f2] e2].
    destruct (binary_Read_rest 4 d_int32 f2 (NumPoints p)) as [C3 L3].
    destruct (binary_Read 4 d_int32 f2 (NumPoints p)) as [[npt f3] e3].
    cbv [fst snd] in C1, L1, C2, L2, C3, L3. unfold make.
    destruct (np <? 0); [discriminate|]. destruct (npt <? 0); [discriminate|].
    rewrite !repeat_length.
    match goal with
    | |- context [binary_Read ?s ?v f3 ?d] =>
      destruct (binary_Read_rest s v f3 d) as [C4 L4];
      destruct (binary_Read s v f3 d) as [[parts f4] e4]
    end.
    cbv [fst snd] in C4, L4.
    match goal with
    | |- context [binary_Read ?s ?v f4 ?d] =>
      destruct (binary_Read_rest s v f4 d) as [C5 L5];
      destruct (binary_Read s v f4 d) as [[points f5] e5]
    end.
    cbv [fst snd] in C5, L5. intros R.
    assert (Ep : p' = mkPolyLine box np npt parts points) by congruence.
    assert (Ef : file' = f5) by congruence.
    subst p' file'. cbv [NumParts NumPoints]. split; [lia | congruence]. }
  split; [|split].
  - intros p file. unfold Point_read.
    destruct (binary_Read_rest 16 d_Point file p) as [_ L].
    destruct (binary_Read 16 d_Point file p) as [[q f] e]. exact L.
  - exact G.
  - intros p file p' file' R H. destruct (G p file p' file' R) as [L _].
    apply length_zero_iff_nil. lia.
Qed.

Lemma read_consumes_record_or_all_witness :
  length (@nil byte) =
  (length (pending truncated_after_NumPoints)
   - (40 + 4 * Z.to_nat 1 + 16 * Z.to_nat 2))%nat
  /\ closing (mkReader [] EOF) = closing truncated_after_NumPoints.
Proof.
  assert (R : PolyLine_read PolyLine_zero truncated_after_NumPoints
              = Returned (mkPolyLine (PolyLine_Box example_PolyLine) 1 2 [0]
                            [Point_zero; Point_zero], mkReader [] EOF))
    by (vm_compute; reflexivity).
  exact (proj1 (proj2 read_consumes_record_or_all) _ _ _ _ R).
Defined.

(* ------------------------------------------------------------------ *)
(** ** NaN in Extend and BBoxFromPoints *)

Lemma ltb_nan_r x y : Float64.is_nan y = true -> Float64.ltb x y = false.
Proof.
  unfold Float64.is_nan, Float64.ltb, SFltb.
  destruct (Float64.value y); try discriminate. destruct (Float64.value x); reflexivity.
Qed.

Lemma gtb_nan_l x y : Float64.is_nan x = true -> Float64.gtb x y = false.
Proof. intros H. rewrite Float64Facts.gtb_ltb. apply ltb_nan_r. exact H. Qed.

Lemma gtb_nan_r x y : Float64.is_nan y = true -> Float64.gtb x y = false.
Proof. intros H. rewrite Float64Facts.gtb_ltb. apply Float64Facts.ltb_nan_l. exact H. Qed.

(** A start value that nothing beats stays. *)
Lemma run_best_unbeatable {A : Type} (lt : A -> A -> bool) (m : A) (xs : list A) :
  (forall x, lt x m = false) -> run_best lt m xs = m.
Proof.
  intros H. induction xs as [|x xs IH]; [reflexivity|].
  rewrite run_best_cons, H. exact IH.
Qed.

(** A candidate that beats nothing is skipped. *)
Lemma run_best_skip {A : Type} (lt : A -> A -> bool) (m x : A) (xs ys : list A) :
  (forall y, lt x y = false) ->
  run_best lt m (xs ++ x :: ys) = run_best lt m (xs ++ ys).
Proof.
  intros H. unfold run_best. rewrite !fold_left_app. cbn [fold_left].
  rewrite H. reflexivity.
Qed.

(** X16: NaN in [Extend]: a NaN bound of the argument is ignored and a
    NaN bound of the receiver stays, each bound on its own; so extending by
    a box of four NaN changes nothing, and a receiver of four NaN is never
    changed. *)
Theorem Extend_NaN (A B : Box) :
  (Float64.is_nan (MinX B) = true \/ Float64.is_nan (MinX A) = true ->
   MinX (Extend A B) = MinX A)
  /\ (Float64.is_nan (MinY B) = true \/ Float64.is_nan (MinY A) = true ->
      MinY (Extend A B) = MinY A)
  /\ (Float64.is_nan (MaxX B) = true \/ Float64.is_nan (MaxX A) = true ->
      MaxX (Extend A B) = MaxX A)
  /\ (Float64.is_nan (MaxY B) = true \/ Float64.is_nan (MaxY A) = true ->
      MaxY (Extend A B) = MaxY A).
Proof.
  rewrite Extend_bounds. cbv [MinX MinY MaxX MaxY]. destruct A, B.
  repeat split; intros [H|H];
    first [ rewrite (Float64Facts.ltb_nan_l _ _ H) | rewrite (ltb_nan_r _ _ H)
          | rewrite (gtb_nan_l _ _ H) | rewrite (gtb_nan_r _ _ H) ];
    reflexivity.
Qed.

Lemma Extend_NaN_witness :
  MinX (Extend outer_box (mkBox Float64.NaN 0 0 0)) = MinX outer_box.
Proof.
  apply (proj1 (Extend_NaN outer_box (mkBox Float64.NaN 0 0 0))).
  left. vm_compute. reflexivity.
Defined.

(** X17: NaN in [BBoxFromPoints]: a NaN X of the first point becomes
    both MinX and MaxX and stays whatever follows, and a NaN X of a later
    point is skipped: the X bounds are those of the sequence without that
    point (likewise for Y). *)
Theorem BBoxFromPoints_NaN (p q : Point) (ps qs : list Point) :
  (Float64.is_nan (X p) = true ->
   MinX (BBoxFromPoints (p :: ps)) = X p /\ MaxX (BBoxFromPoints (p :: ps)) = X p)
  /\ (Float64.is_nan (Y p) = true ->
      MinY (BBoxFromPoints (p :: ps)) = Y p /\ MaxY (BBoxFromPoints (p :: ps)) = Y p)
  /\ (Float64.is_nan (X q) = true ->
      MinX (BBoxFromPoints (p :: ps ++ q :: qs)) = MinX (BBoxFromPoints (p :: ps ++ qs)) /\
      MaxX (BBoxFromPoints (p :: ps ++ q :: qs)) = MaxX (BBoxFromPoints (p :: ps ++ qs)))
  /\ (Float64.is_nan (Y q) = true ->
      MinY (BBoxFromPoints (p :: ps ++ q :: qs)) = MinY (BBoxFromPoints (p :: ps ++ qs)) /\
      MaxY (BBoxFromPoints (p :: ps ++ q :: qs)) = MaxY (BBoxFromPoints (p :: ps ++ qs))).
Proof.
  rewrite !BBoxFromPoints_bounds. cbv [MinX MinY MaxX MaxY].
  rewrite !map_app. cbn [map].
  split; [|split; [|split]]; intros H.
  - split; apply run_best_unbeatable; intros x;
      [apply ltb_nan_r | apply gtb_nan_r]; exact H.
  - split; apply run_best_unbeatable; intros x;
      [apply ltb_nan_r | apply gtb_nan_r]; exact H.
  - split; apply run_best_skip; intros y;
      [apply Float64Facts.ltb_nan_l | apply gtb_nan_l]; exact H.
  - split; apply run_best_skip; intros y;
      [apply Float64Facts.ltb_nan_l | apply gtb_nan_l]; exact H.
Qed.

Lemma BBoxFromPoints_NaN_witness :
  MinX (BBoxFromPoints (mkPoint Float64.NaN 0 :: [mkPoint (Float64.of_int 1) 0])) = Float64.NaN /\
  MaxX (BBoxFromPoints (mkPoint Float64.NaN 0 :: [mkPoint (Float64.of_int 1) 0])) = Float64.NaN.
Proof.
  apply (proj1 (BBoxFromPoints_NaN (mkPoint Float64.NaN 0) Point_zero
                  [mkPoint (Float64.of_int 1) 0] [])).
  vm_compute. reflexivity.
Defined.

(* ------------------------------------------------------------------ *)
(** ** [read] under a runtime *)

(** [PolyLine.read] under a runtime: the runtime decides whether the
    call gets past its allocations; when it does, the call ends as
    [PolyLine_read] says, which is thus the run in which every request is
    served. *)
Lemma PolyLine_read_in_fate rt p file :
  PolyLine_read_in rt p file =
  match PolyLine_read_fate rt (fst (PolyLine_counts p file))
                           (snd (PolyLine_counts p file)) with
  | Panics => Panics
  | Dies => Dies
  | Returns _ =>
    match PolyLine_read p file with
    | Returned r => Returns r
    | Panicked => Panics
    end
  end.
Proof.
  unfold PolyLine_read_in, PolyLine_read, PolyLine_counts, PolyLine_read_fate.
  destruct (binary_Read 32 d_Box file (PolyLine_Box p)) as [[box f1] e1].
  destruct (binary_Read 4 d_int32 f1 (NumParts p)) as [[np f2] e2].
  destruct (binary_Read 4 d_int32 f2 (NumPoints p)) as [[npt f3] e3].
  cbv [fst snd]. unfold make_in, make, binary_Read_in.
  destruct (Z.ltb_spec np 0) as [Hnp|Hnp]; cbn [orb]; [reflexivity|].
  destruct (Z.of_N (maxAlloc rt) <? np * 4); [reflexivity|].
  destruct (granted rt 0 (np * 4)); cbn [negb]; [|reflexivity].
  destruct (Z.ltb_spec npt 0) as [Hnpt|Hnpt]; cbn [orb]; [reflexivity|].
  destruct (Z.of_N (maxAlloc rt) <? npt * 16); [reflexivity|].
  destruct (granted rt 1 (npt * 16)); cbn [negb]; [|reflexivity].
  rewrite !repeat_length.
  replace (Z.of_nat (4 * Z.to_nat np)) with (np * 4) by lia.
  replace (Z.of_nat (16 * Z.to_nat npt)) with (npt * 16) by lia.
  destruct (granted rt 2 (np * 4)); cbn [negb]; [|reflexivity].
  match goal with
  | |- context [binary_Read ?s ?v f3 ?d] =>
    destruct (binary_Read s v f3 d) as [[parts f4] e4]
  end.
  destruct (granted rt 3 (npt * 16)); cbn [negb]; [|reflexivity].
  match goal with
  | |- context [binary_Read ?s ?v f4 ?d] =>
    destruct (binary_Read s v f4 d) as [[points f5] e5]
  end.
  reflexivity.
Qed.

(** [Polygon.read] is [PolyLine.read] under the conversion, also under
    a runtime. *)
Lemma Polygon_read_in_PolyLine_read_in rt p file :
  Polygon_read_in rt p file =
  match PolyLine_read_in rt (PolyLine_of_Polygon p) file with
  | Returns (q, file') => Returns (Polygon_of_PolyLine q, file')
  | Panics => Panics
  | Dies => Dies
  end.
Proof.
  unfold Polygon_read_in, PolyLine_read_in.
  cbv [PolyLine_of_Polygon PolyLine_Box NumParts NumPoints].
  destruct (binary_Read 32 d_Box file (Polygon_Box p)) as [[box f1] e1].
  destruct (binary_Read 4 d_int32 f1 (Polygon_NumParts p)) as [[np f2] e2].
  destruct (binary_Read 4 d_int32 f2 (Polygon_NumPoints p)) as [[npt f3] e3].
  destruct (make_in (A := int32) rt 0 4 0 np) as [parts| |]; try reflexivity.
  destruct (make_in rt 1 16 Point_zero npt) as [points| |]; try reflexivity.
  destruct (binary_Read_in rt 2 (4 * length parts) (d_slice d_int32 (length parts)) f3 parts)
    as [[[parts' f4] e4]|]; [|reflexivity].
  destruct (binary_Read_in rt 3 (16 * length points) (d_slice d_Point (length points)) f4 points)
    as [[[points' f5] e5]|]; reflexivity.
Qed.

(** The runtime lets the read go through. *)
Lemma PolyLine_read_fate_Returns rt np npt :
  0 <= np -> np * 4 <= Z.of_N (maxAlloc rt) ->
  0 <= npt -> npt * 16 <= Z.of_N (maxAlloc rt) ->
  granted rt 0 (np * 4) = true -> granted rt 1 (npt * 16) = true ->
  granted rt 2 (np * 4) = true -> granted rt 3 (npt * 16) = true ->
  PolyLine_read_fate rt np npt = Returns tt.
Proof.
  intros H1 H2 H3 H4 G0 G1 G2 G3. unfold PolyLine_read_fate.
  rewrite G0, G1, G2, G3. cbn [negb].
  destruct (Z.ltb_spec np 0); [lia|].
  destruct (Z.ltb_spec (Z.of_N (maxAlloc rt)) (np * 4)); [lia|].
  destruct (Z.ltb_spec npt 0); [lia|].
  destruct (Z.ltb_spec (Z.of_N (maxAlloc rt)) (npt * 16)); [lia|].
  reflexivity.
Qed.

(** With both counts zero nothing is asked of the runtime. *)
Lemma PolyLine_read_fate_zero rt : PolyLine_read_fate rt 0 0 = Returns tt.
Proof.
  apply PolyLine_read_fate_Returns; try reflexivity; lia.
Qed.

(** The counts when the source holds the 40 bytes of the header: the
    two integers at offsets 32 and 36. *)
Lemma PolyLine_counts_decoded p file :
  (40 <= length (pending file))%nat ->
  PolyLine_counts p file =
  (fst (d_int32 (firstn 4 (skipn 32 (pending file)))),
   fst (d_int32 (firstn 4 (skipn 36 (pending file))))).
Proof.
  intros H. unfold PolyLine_counts. destruct file as [pend e]. cbv [pending] in *.
  rewrite binary_Read_ge by (cbv [pending]; lia). cbv [pending closing].
  rewrite binary_Read_ge by (cbv [pending]; rewrite length_skipn; lia).
  cbv [pending closing].
  rewrite binary_Read_ge by (cbv [pending]; rewrite !length_skipn; lia).
  cbv [pending closing]. rewrite skipn_skipn. reflexivity.
Qed.

Lemma PolyLine_counts_header p0 b np npt rest e :
  wf_Box b -> wf_int32 np -> wf_int32 npt ->
  PolyLine_counts p0 (mkReader (e_Box b ++ e_int32 np ++ e_int32 npt ++ rest) e) = (np, npt).
Proof.
  intros HB HNP HNPT. unfold PolyLine_counts.
  rewrite binary_Read_enough by apply length_e_Box.
  rewrite binary_Read_enough by apply length_e_int32.
  rewrite <- (app_nil_r (e_int32 np)), d_int32_e_int32 by exact HNP. cbv [fst].
  rewrite binary_Read_enough by apply length_e_int32.
  rewrite <- (app_nil_r (e_int32 npt)), d_int32_e_int32 by exact HNPT. reflexivity.
Qed.

(** The counts when the source ends inside NumPoints: NumParts is read,
    NumPoints is the receiver's. *)
Lemma PolyLine_counts_inside_NumPoints p0 b np tail e :
  wf_int32 np -> (length tail < 4)%nat ->
  PolyLine_counts p0 (mkReader (e_Box b ++ e_int32 np ++ tail) e) = (np, NumPoints p0).
Proof.
  intros HNP Ht. unfold PolyLine_counts.
  rewrite binary_Read_enough by apply length_e_Box.
  rewrite binary_Read_enough by apply length_e_int32.
  rewrite <- (app_nil_r (e_int32 np)), d_int32_e_int32 by exact HNP. cbv [fst].
  destruct (binary_Read_short 4 d_int32 (mkReader tail e) (NumPoints p0)) as [err ->];
    [exact Ht|]. reflexivity.
Qed.

(** The counts when the source ends before NumParts completes: both
    are the receiver's. *)
Lemma PolyLine_counts_short p file :
  (length (pending file) < 36)%nat ->
  PolyLine_counts p file = (NumParts p, NumPoints p).
Proof.
  intros H. unfold PolyLine_counts.
  destruct (binary_Read_rest 32 d_Box file (PolyLine_Box p)) as [C1 L1].
  destruct (binary_Read 32 d_Box file (PolyLine_Box p)) as [[box r1] e1].
  cbv [fst snd] in C1, L1.
  destruct (binary_Read_short 4 d_int32 r1 (NumParts p)) as [err2 ->]; [lia|].
  destruct (binary_Read_short 4 d_int32 (mkReader [] (closing r1)) (NumPoints p))
    as [err3 ->]; [cbv [pending length]; lia|].
  reflexivity.
Qed.

(** [PolyLine.read] on a source that ends inside NumPoints, into a
    receiver whose NumPoints is not negative. *)
Lemma PolyLine_read_inside_NumPoints p0 b np tail e :
  wf_Box b -> wf_int32 np -> (length tail < 4)%nat -> 0 <= np -> 0 <= NumPoints p0 ->
  PolyLine_read p0 (mkReader (e_Box b ++ e_int32 np ++ tail) e) =
  Returned
    (mkPolyLine b np (NumPoints p0) (repeat 0 (Z.to_nat np))
                (repeat Point_zero (Z.to_nat (NumPoints p0))),
     mkReader [] e).
Proof.
  intros HB HNP Ht Hnp Hnpt. unfold PolyLine_read.
  rewrite binary_Read_enough by apply length_e_Box.
  rewrite <- (app_nil_r (e_Box b)), d_Box_e_Box by exact HB. cbv [fst].
  rewrite binary_Read_enough by apply length_e_int32.
  rewrite <- (app_nil_r (e_int32 np)), d_int32_e_int32 by exact HNP. cbv [fst].
  destruct (binary_Read_short 4 d_int32 (mkReader tail e) (NumPoints p0)) as [err ->];
    [exact Ht|]. cbv [closing].
  rewrite (make_Some (A := int32) 0 np) by exact Hnp.
  rewrite (make_Some Point_zero (NumPoints p0)) by exact Hnpt.
  rewrite !repeat_length.
  destruct (binary_Read_slice_unfilled 4 d_int32 0 (Z.to_nat np) (mkReader [] e))
    as [err4 E4].
  { cbv [pending length]. destruct (Z.to_nat np); [right; auto | left; lia]. }
  rewrite E4. cbv [closing].
  destruct (binary_Read_slice_unfilled 16 d_Point Point_zero (Z.to_nat (NumPoints p0))
              (mkReader [] e)) as [err5 E5].
  { cbv [pending length]. destruct (Z.to_nat (NumPoints p0)); [right; auto | left; lia]. }
  rewrite E5. reflexivity.
Qed.

Lemma PolyLine_read_fate_Returns_iff rt np npt :
  PolyLine_read_fate rt np npt = Returns tt <->
  0 <= np /\ np * 4 <= Z.of_N (maxAlloc rt) /\
  0 <= npt /\ npt * 16 <= Z.of_N (maxAlloc rt) /\
  granted rt 0 (np * 4) = true /\ granted rt 1 (npt * 16) = true /\
  granted rt 2 (np * 4) = true /\ granted rt 3 (npt * 16) = true.
Proof.
  split.
  - unfold PolyLine_read_fate.
    destruct (Z.ltb_spec np 0); cbn [orb]; [discriminate|].
    destruct (Z.ltb_spec (Z.of_N (maxAlloc rt)) (np * 4)); [discriminate|].
    destruct (granted rt 0 (np * 4)); cbn [negb]; [|discriminate].
    destruct (Z.ltb_spec npt 0); cbn [orb]; [discriminate|].
    destruct (Z.ltb_spec (Z.of_N (maxAlloc rt)) (npt * 16)); [discriminate|].
    destruct (granted rt 1 (npt * 16)); cbn [negb]; [|discriminate].
    destruct (granted rt 2 (np * 4)); cbn [negb]; [|discriminate].
    destruct (granted rt 3 (npt * 16)); cbn [negb]; [|discriminate].
    intros _. repeat split; assumption.
  - intros (H1 & H2 & H3 & H4 & G0 & G1 & G2 & G3).
    apply PolyLine_read_fate_Returns; assumption.
Qed.

Lemma PolyLine_read_fate_Panics_iff rt np npt :
  PolyLine_read_fate rt np npt = Panics <->
  (np < 0 \/ Z.of_N (maxAlloc rt) < np * 4) \/
  (0 <= np /\ np * 4 <= Z.of_N (maxAlloc rt) /\ granted rt 0 (np * 4) = true /\
   (npt < 0 \/ Z.of_N (maxAlloc rt) < npt * 16)).
Proof.
  unfold PolyLine_read_fate.
  destruct (Z.ltb_spec np 0); cbn [orb]; [split; [intros _; left; lia | reflexivity]|].
  destruct (Z.ltb_spec (Z.of_N (maxAlloc rt)) (np * 4));
    [split; [intros _; left; lia | reflexivity]|].
  destruct (granted rt 0 (np * 4)); cbn [negb];
    [|split; [discriminate | intros [[?|?]|(_ & _ & ? & _)]; try lia; discriminate]].
  destruct (Z.ltb_spec npt 0); cbn [orb];
    [split; [intros _; right; repeat split; try assumption; left; assumption | reflexivity]|].
  destruct (Z.ltb_spec (Z.of_N (maxAlloc rt)) (npt * 16));
    [split; [intros _; right; repeat split; try assumption; right; assumption | reflexivity]|].
  split.
  - destruct (granted rt 1 (npt * 16)); cbn [negb]; [|discriminate].
    destruct (granted rt 2 (np * 4)); cbn [negb]; [|discriminate].
    destruct (granted rt 3 (npt * 16)); cbn [negb]; discriminate.
  - intros [[?|?]|(_ & _ & _ & [?|?])]; lia.
Qed.

(** How [PolyLine.read] ends under a runtime, and with what. *)
Lemma PolyLine_read_in_ending rt p file :
  match PolyLine_read_fate rt (fst (PolyLine_counts p file))
                           (snd (PolyLine_counts p file)) with
  | Returns _ =>
    exists r, PolyLine_read_in rt p file = Returns r /\ PolyLine_read p file = Returned r
  | Panics => PolyLine_read_in rt p file = Panics
  | Dies => PolyLine_read_in rt p file = Dies
  end.
Proof.
  rewrite PolyLine_read_in_fate.
  destruct (PolyLine_read_fate rt (fst (PolyLine_counts p file))
                               (snd (PolyLine_counts p file))) as [[]| |] eqn:F;
    try reflexivity.
  apply PolyLine_read_fate_Returns_iff in F. destruct F as (H1 & _ & H3 & _).
  destruct (PolyLine_read_returns p file H1 H3) as (p' & file' & R).
  rewrite R. exists (p', file'). split; reflexivity.
Qed.

Lemma PolyLine_read_in_Returns rt p file r :
  PolyLine_read_in rt p file = Returns r ->
  PolyLine_read_fate rt (fst (PolyLine_counts p file)) (snd (PolyLine_counts p file))
  = Returns tt /\ PolyLine_read p file = Returned r.
Proof.
  intros H. pose proof (PolyLine_read_in_ending rt p file) as E.
  destruct (PolyLine_read_fate rt (fst (PolyLine_counts p file))
                               (snd (PolyLine_counts p file))) as [[]| |].
  - destruct E as (r' & E1 & E2). split; [reflexivity|]. congruence.
  - congruence.
  - congruence.
Qed.

(** What a returning [PolyLine.read] leaves: the counts it read, and
    slices of exactly those lengths. *)
Lemma PolyLine_read_in_lengths rt p file p' file' :
  PolyLine_read_in rt p file = Returns (p', file') ->
  NumParts p' = fst (PolyLine_counts p file) /\
  NumPoints p' = snd (PolyLine_counts p file) /\
  0 <= NumParts p' /\ 0 <= NumPoints p' /\
  Z.of_nat (length (Parts p')) = NumParts p' /\
  Z.of_nat (length (Points p')) = NumPoints p'.
Proof.
  intros H. apply PolyLine_read_in_Returns in H. destruct H as [F R].
  apply PolyLine_read_fate_Returns_iff in F. destruct F as (H1 & _ & H3 & _).
  pose proof (PolyLine_read_ends p file) as E. cbv zeta in E.
  apply Z.ltb_ge in H1, H3. rewrite H1, H3 in E. cbn [orb] in E.
  destruct E as (box & parts & points & f & R' & L1 & L2).
  apply Z.ltb_ge in H1, H3.
  assert (Ep : p' = mkPolyLine box (fst (PolyLine_counts p file))
                      (snd (PolyLine_counts p file)) parts points) by congruence.
  subst p'. cbv [NumParts NumPoints Parts Points].
  repeat split; try assumption; lia.
Qed.

(** C8: every PolyLine or Polygon that [read] produces, under any
    runtime, has the NumParts and NumPoints that the three header reads
    left (the two integers at offsets 32 and 36 of a source that holds the
    header), both not negative, and Parts and Points of exactly those
    lengths, len(Parts) = NumParts and len(Points) = NumPoints.  [read]
    does produce one when both counts are not negative, the slices are
    within the allocation limit and the runtime serves the four requests of
    those sizes. *)
Theorem decoded_lengths_match_counts :
  (forall rt p file p' file',
      PolyLine_read_in rt p file = Returns (p', file') ->
      NumParts p' = fst (PolyLine_counts p file) /\
      NumPoints p' = snd (PolyLine_counts p file) /\
      0 <= NumParts p' /\ 0 <= NumPoints p' /\
      Z.of_nat (length (Parts p')) = NumParts p' /\
      Z.of_nat (length (Points p')) = NumPoints p')
  /\ (forall rt p file p' file',
      Polygon_read_in rt p file = Returns (p', file') ->
      Polygon_NumParts p' = fst (PolyLine_counts (PolyLine_of_Polygon p) file) /\
      Polygon_NumPoints p' = snd (PolyLine_counts (PolyLine_of_Polygon p) file) /\
      0 <= Polygon_NumParts p' /\ 0 <= Polygon_NumPoints p' /\
      Z.of_nat (length (Polygon_Parts p')) = Polygon_NumParts p' /\
      Z.of_nat (length (Polygon_Points p')) = Polygon_NumPoints p')
  /\ (forall p file,
      (40 <= length (pending file))%nat ->
      PolyLine_counts p file =
      (fst (d_int32 (firstn 4 (skipn 32 (pending file)))),
       fst (d_int32 (firstn 4 (skipn 36 (pending file))))))
  /\ (forall rt p file,
      0 <= fst (PolyLine_counts p file) ->
      fst (PolyLine_counts p file) * 4 <= Z.of_N (maxAlloc rt) ->
      0 <= snd (PolyLine_counts p file) ->
      snd (PolyLine_counts p file) * 16 <= Z.of_N (maxAlloc rt) ->
      granted rt 0 (fst (PolyLine_counts p file) * 4) = true ->
      granted rt 1 (snd (PolyLine_counts p file) * 16) = true ->
      granted rt 2 (fst (PolyLine_counts p file) * 4) = true ->
      granted rt 3 (snd (PolyLine_counts p file) * 16) = true ->
      exists p' file', PolyLine_read_in rt p file = Returns (p', file'))
  /\ (forall rt (g : Polygon) file,
      0 <= fst (PolyLine_counts (PolyLine_of_Polygon g) file) ->
      fst (PolyLine_counts (PolyLine_of_Polygon g) file) * 4 <= Z.of_N (maxAlloc rt) ->
      0 <= snd (PolyLine_counts (PolyLine_of_Polygon g) file) ->
      snd (PolyLine_counts (PolyLine_of_Polygon g) file) * 16 <= Z.of_N (maxAlloc rt) ->
      granted rt 0 (fst (PolyLine_counts (PolyLine_of_Polygon g) file) * 4) = true ->
      granted rt 1 (snd (PolyLine_counts (PolyLine_of_Polygon g) file) * 16) = true ->
      granted rt 2 (fst (PolyLine_counts (PolyLine_of_Polygon g) file) * 4) = true ->
      granted rt 3 (snd (PolyLine_counts (PolyLine_of_Polygon g) file) * 16) = true ->
      exists g' file', Polygon_read_in rt g file = Returns (g', file')).
Proof.
  split; [exact PolyLine_read_in_lengths|]. split; [|split; [|split]].
  - intros rt p file p' file' H. rewrite Polygon_read_in_PolyLine_read_in in H.
    destruct (PolyLine_read_in rt (PolyLine_of_Polygon p) file) as [[q f]| |] eqn:R;
      try discriminate.
    assert (Ep : p' = Polygon_of_PolyLine q) by congruence. subst p'.
    exact (PolyLine_read_in_lengths _ _ _ _ _ R).
  - exact PolyLine_counts_decoded.
  - intros rt p file H1 H2 H3 H4 G0 G1 G2 G3.
    pose proof (PolyLine_read_in_ending rt p file) as E.
    rewrite (PolyLine_read_fate_Returns rt _ _ H1 H2 H3 H4 G0 G1 G2 G3) in E.
    destruct E as ([p' file'] & E & _). eauto.
  - intros rt g file H1 H2 H3 H4 G0 G1 G2 G3.
    pose proof (PolyLine_read_in_ending rt (PolyLine_of_Polygon g) file) as E.
    rewrite (PolyLine_read_fate_Returns rt _ _ H1 H2 H3 H4 G0 G1 G2 G3) in E.
    destruct E as ([p' file'] & E & _).
    rewrite Polygon_read_in_PolyLine_read_in, E. eauto.
Qed.

Lemma decoded_lengths_match_counts_witness :
  PolyLine_read_in (runtime_with 1048576) PolyLine_zero
    (mkReader (firstn 64 (PolyLine_bytes example_PolyLine)) EOF)
  = Returns (mkPolyLine (PolyLine_Box example_PolyLine) 1 2 [0] [Point_zero; Point_zero],
             mkReader [] EOF)
  /\ Z.of_nat (length [0]) = 1
  /\ Z.of_nat (length [Point_zero; Point_zero]) = 2.
Proof.
  assert (R : PolyLine_read_in (runtime_with 1048576) PolyLine_zero
                (mkReader (firstn 64 (PolyLine_bytes example_PolyLine)) EOF)
              = Returns (mkPolyLine (PolyLine_Box example_PolyLine) 1 2 [0]
                           [Point_zero; Point_zero],
                         mkReader [] EOF)) by (vm_compute; reflexivity).
  split; [exact R|].
  exact (proj2 (proj2 (proj2 (proj2 (proj1 decoded_lengths_match_counts _ _ _ _ _ R))))).
Defined.

(** [PolyLine.read] under a runtime on a source with the header and
    then fewer bytes than the arrays need. *)
Lemma PolyLine_read_in_truncated_arrays rt p0 b np npt rest e :
  wf_Box b -> wf_int32 np -> wf_int32 npt -> 0 <= np -> 0 <= npt ->
  (length rest < 4 * Z.to_nat np + 16 * Z.to_nat npt)%nat ->
  PolyLine_read_in rt p0 (mkReader (e_Box b ++ e_int32 np ++ e_int32 npt ++ rest) e) =
  match PolyLine_read_fate rt np npt with
  | Panics => Panics
  | Dies => Dies
  | Returns _ =>
    Returns
      (mkPolyLine b np npt
         (if (4 * Z.to_nat np <=? length rest)%nat
          then fst (d_slice d_int32 (Z.to_nat np) (firstn (4 * Z.to_nat np) rest))
          else repeat 0 (Z.to_nat np))
         (repeat Point_zero (Z.to_nat npt)),
       mkReader [] e)
  end.
Proof.
  intros HB HNP HNPT Hnp Hnpt Hshort.
  rewrite PolyLine_read_in_fate, PolyLine_counts_header by assumption. cbv [fst snd].
  rewrite PolyLine_read_truncated_arrays by assumption. reflexivity.
Qed.

(** One source, three endings: on [huge_NumPoints] the slice of Points
    asks for 2147483647 * 16 bytes.  Where the runtime has no such memory
    the process dies; on a 32-bit target the length is out of range and the
    call panics.  No error is returned either way. *)
Lemma PolyLine_read_in_huge_NumPoints :
  PolyLine_read_in (runtime_with (2 ^ 30)) PolyLine_zero huge_NumPoints = Dies
  /\ PolyLine_read_in (mkRuntime (2 ^ 31 - 1) (fun _ _ => true)) PolyLine_zero huge_NumPoints
     = Panics.
Proof. split; vm_compute; reflexivity. Qed.

(** C2 (amended): a PolyLine decode on a truncated source reports no
    error; how it ends depends on the counts and on the runtime alone.
    When the source holds the header with counts that are not negative and
    then fewer bytes than the two arrays need: if a slice is over the
    allocation limit the call panics, if the runtime refuses one of the four
    requests the process dies, and otherwise (allocations within the limit
    and served) [read] returns normally and drains the source, with Box,
    NumParts and NumPoints those of the header, Points of NumPoints
    elements, all zero, and Parts of NumParts elements, decoded if the
    source held all of them and all zero otherwise.  When the source ends
    inside NumPoints, [read] on a fresh receiver ends the same three ways
    and, returning, leaves NumParts as read, NumPoints 0, Parts of NumParts
    zeros and Points empty.  When the source ends before NumParts completes,
    [read] on a fresh receiver returns normally under every runtime, with
    both counts 0 and both slices empty. *)
Theorem PolyLine_read_truncated_zero_filled :
  (forall rt p0 b np npt rest e,
      wf_Box b -> wf_int32 np -> wf_int32 npt -> 0 <= np -> 0 <= npt ->
      (length rest < 4 * Z.to_nat np + 16 * Z.to_nat npt)%nat ->
      PolyLine_read_in rt p0 (mkReader (e_Box b ++ e_int32 np ++ e_int32 npt ++ rest) e) =
      match PolyLine_read_fate rt np npt with
      | Panics => Panics
      | Dies => Dies
      | Returns _ =>
        Returns
          (mkPolyLine b np npt
             (if (4 * Z.to_nat np <=? length rest)%nat
              then fst (d_slice d_int32 (Z.to_nat np) (firstn (4 * Z.to_nat np) rest))
              else repeat 0 (Z.to_nat np))
             (repeat Point_zero (Z.to_nat npt)),
           mkReader [] e)
      end)
  /\ (forall rt np npt,
      PolyLine_read_fate rt np npt = Returns tt <->
      0 <= np /\ np * 4 <= Z.of_N (maxAlloc rt) /\
      0 <= npt /\ npt * 16 <= Z.of_N (maxAlloc rt) /\
      granted rt 0 (np * 4) = true /\ granted rt 1 (npt * 16) = true /\
      granted rt 2 (np * 4) = true /\ granted rt 3 (npt * 16) = true)
  /\ (forall rt np npt,
      PolyLine_read_fate rt np npt = Panics <->
      (np < 0 \/ Z.of_N (maxAlloc rt) < np * 4) \/
      (0 <= np /\ np * 4 <= Z.of_N (maxAlloc rt) /\ granted rt 0 (np * 4) = true /\
       (npt < 0 \/ Z.of_N (maxAlloc rt) < npt * 16)))
  /\ (forall rt p0 b np npt rest e,
      wf_Box b -> wf_int32 np -> wf_int32 npt -> 0 <= np -> 0 <= npt ->
      (length rest < 4 * Z.to_nat np + 16 * Z.to_nat npt)%nat ->
      np * 4 <= Z.of_N (maxAlloc rt) -> npt * 16 <= Z.of_N (maxAlloc rt) ->
      granted rt 0 (np * 4) = true -> granted rt 1 (npt * 16) = true ->
      granted rt 2 (np * 4) = true -> granted rt 3 (npt * 16) = true ->
      PolyLine_read_in rt p0 (mkReader (e_Box b ++ e_int32 np ++ e_int32 npt ++ rest) e) =
      Returns
        (mkPolyLine b np npt
           (if (4 * Z.to_nat np <=? length rest)%nat
            then fst (d_slice d_int32 (Z.to_nat np) (firstn (4 * Z.to_nat np) rest))
            else repeat 0 (Z.to_nat np))
           (repeat Point_zero (Z.to_nat npt)),
         mkReader [] e))
  /\ (forall rt b np tail e,
      wf_Box b -> wf_int32 np -> (length tail < 4)%nat ->
      PolyLine_read_in rt PolyLine_zero (mkReader (e_Box b ++ e_int32 np ++ tail) e) =
      match PolyLine_read_fate rt np 0 with
      | Panics => Panics
      | Dies => Dies
      | Returns _ =>
        Returns (mkPolyLine b np 0 (repeat 0 (Z.to_nat np)) [], mkReader [] e)
      end)
  /\ (forall rt file,
      (length (pending file) < 36)%nat ->
      PolyLine_read_in rt PolyLine_zero file =
      Returns
        (mkPolyLine (fst (fst (binary_Read 32 d_Box file Box_zero))) 0 0 [] [],
         mkReader [] (closing file))).
Proof.
  split; [exact PolyLine_read_in_truncated_arrays|].
  split; [exact PolyLine_read_fate_Returns_iff|].
  split; [exact PolyLine_read_fate_Panics_iff|].
  split; [|split].
  - intros rt p0 b np npt rest e HB HNP HNPT Hnp Hnpt Hshort M1 M2 G0 G1 G2 G3.
    rewrite PolyLine_read_in_truncated_arrays by assumption.
    rewrite PolyLine_read_fate_Returns by assumption. reflexivity.
  - intros rt b np tail e HB HNP Ht.
    rewrite PolyLine_read_in_fate, PolyLine_counts_inside_NumPoints by assumption.
    cbv [fst snd PolyLine_zero NumPoints].
    destruct (PolyLine_read_fate rt np 0) as [[]| |] eqn:F; try reflexivity.
    apply PolyLine_read_fate_Returns_iff in F. destruct F as (H1 & _).
    rewrite (PolyLine_read_inside_NumPoints (mkPolyLine Box_zero 0 0 [] []) b np tail e)
      by (assumption || (cbv [NumPoints]; lia)).
    reflexivity.
  - intros rt file H.
    rewrite PolyLine_read_in_fate, PolyLine_counts_short by exact H.
    cbv [fst snd PolyLine_zero NumParts NumPoints]. rewrite PolyLine_read_fate_zero.
    rewrite (PolyLine_read_short_header (mkPolyLine Box_zero 0 0 [] []) file H)
      by (cbv [NumParts NumPoints]; lia).
    reflexivity.
Qed.

Lemma PolyLine_read_truncated_zero_filled_witness :
  PolyLine_read_in (runtime_with 1048576) PolyLine_zero
    (mkReader (e_Box (PolyLine_Box example_PolyLine) ++ e_int32 1 ++ e_int32 2 ++ []) EOF)
  = Returns
      (mkPolyLine (PolyLine_Box example_PolyLine) 1 2
         (if (4 * Z.to_nat 1 <=? length (@nil byte))%nat
          then fst (d_slice d_int32 (Z.to_nat 1) (firstn (4 * Z.to_nat 1) []))
          else repeat 0 (Z.to_nat 1))
         (repeat Point_zero (Z.to_nat 2)),
       mkReader [] EOF).
Proof.
  apply (proj1 (proj2 (proj2 (proj2 PolyLine_read_truncated_zero_filled)))
           (runtime_with 1048576) PolyLine_zero (PolyLine_Box example_PolyLine) 1 2 [] EOF).
  - unfold wf_Box, Float64.wf. cbn [example_PolyLine PolyLine_Box MinX MinY MaxX MaxY].
    split_all; vm_compute; first [reflexivity | discriminate].
  - unfold wf_int32. split; vm_compute; first [reflexivity | discriminate].
  - unfold wf_int32. split; vm_compute; first [reflexivity | discriminate].
  - lia.
  - lia.
  - vm_compute. lia.
  - vm_compute. discriminate.
  - vm_compute. discriminate.
  - reflexivity.
  - reflexivity.
  - reflexivity.
  - reflexivity.
Defined.



(** [negative_NumParts] and [truncated_after_NumPoints] under a runtime:
    the negative count panics under every runtime, and the header followed
    by nothing gives the zero-filled slices when the runtime serves the 4
    and 32 bytes asked for. *)
Lemma PolyLine_read_in_on_the_two_sources :
  (forall rt, PolyLine_read_in rt PolyLine_zero negative_NumParts = Panics)
  /\ PolyLine_read_in (runtime_with 1048576) PolyLine_zero truncated_after_NumPoints
     = Returns (mkPolyLine (PolyLine_Box example_PolyLine) 1 2 [0] [Point_zero; Point_zero],
                mkReader [] EOF).
Proof.
  split; [|vm_compute; reflexivity].
  intros rt. rewrite PolyLine_read_in_fate.
  replace (PolyLine_counts PolyLine_zero negative_NumParts) with (-1, 0)
    by (vm_compute; reflexivity).
  reflexivity.
Qed.
